(** * VideoPlayer: playback / control state synchronisation

    A shallow embedding of the logic of [src/react-video-player/index.tsx]:
    the React state hooks, the three effects, the event handlers and the
    auto-hide timer of the [VideoPlayer] component, together with the parts
    of the host platform they talk to (the [<video>] element, the timer
    table, the promise returned by [play()]). *)

From Stdlib Require Import QArith Qcanon ZArith Lia Bool List.
From Stdlib Require Import Qround Lqa.
From Stdlib Require Import String Ascii.
From Stdlib Require DecimalString DecimalPos DecimalZ.
From stdpp Require Import base numbers gmap.

Local Open Scope Z_scope.

(** ** JavaScript numbers

    A JS [number] is modelled as an exact rational or one of the three
    non-finite values.  Rounding and the sign of zero are abstracted away:
    a product or quotient here is the exact one, where the program has the
    binary64 nearest to it.  What is kept is what the handlers depend on:
    division by zero yields [NaN] or an infinity, and [NaN] absorbs. *)
Module Js.

Inductive number : Type :=
| Fin (q : Qc)
| PosInf
| NegInf
| NaN.

Definition num (z : Z) : number := Fin (Qc_of_Z z).

Definition is_zero (q : Qc) : bool := bool_decide (q = Qc_of_Z 0).
Definition is_neg (q : Qc) : bool := bool_decide (q < Qc_of_Z 0)%Qc.

(** [x / y] *)
Definition div (x y : number) : number :=
  match x, y with
  | NaN, _ | _, NaN => NaN
  | Fin a, Fin b =>
      if is_zero b then
        if is_zero a then NaN else if is_neg a then NegInf else PosInf
      else Fin (a / b)%Qc
  | Fin _, (PosInf | NegInf) => Fin (Qc_of_Z 0)
  | (PosInf | NegInf), (PosInf | NegInf) => NaN
  | PosInf, Fin b => if is_neg b then NegInf else PosInf
  | NegInf, Fin b => if is_neg b then PosInf else NegInf
  end.

(** [x * y] *)
Definition mul (x y : number) : number :=
  match x, y with
  | NaN, _ | _, NaN => NaN
  | Fin a, Fin b => Fin (a * b)%Qc
  | PosInf, Fin b | Fin b, PosInf =>
      if is_zero b then NaN else if is_neg b then NegInf else PosInf
  | NegInf, Fin b | Fin b, NegInf =>
      if is_zero b then NaN else if is_neg b then PosInf else NegInf
  | PosInf, PosInf | NegInf, NegInf => PosInf
  | PosInf, NegInf | NegInf, PosInf => NegInf
  end.

(** [x === y]: [NaN] is not equal to itself. *)
Definition strict_eq (x y : number) : bool :=
  match x, y with
  | Fin a, Fin b => bool_decide (a = b)
  | PosInf, PosInf | NegInf, NegInf => true
  | _, _ => false
  end.

(** [Object.is(x, y)], the comparison React uses on state and on effect
    dependencies. *)
Definition object_is (x y : number) : bool :=
  match x, y with
  | Fin a, Fin b => bool_decide (a = b)
  | PosInf, PosInf | NegInf, NegInf | NaN, NaN => true
  | _, _ => false
  end.

Definition is_finite (x : number) : bool :=
  match x with Fin _ => true | _ => false end.

End Js.

Import Js.

#[global] Arguments Js.div : simpl never.
#[global] Arguments Js.mul : simpl never.

(** ** The host's video element *)

Inductive EventType := timeupdate | loadedmetadata | ended.

(** The three closures the mount effect creates. *)
Inductive Listener := HandleTimeUpdate | HandleLoadedMetadata | HandleEnded.

(** What the component asks of the element, in the order it asks. *)
Inductive Command :=
| Play
| Pause
| SetCurrentTime (t : number)
| SetVolume (v : number).

Record HTMLVideoElement := {
  v_currentTime : number;
  v_duration : number;
  v_volume : number;
  v_listeners : list (EventType * Listener);
  v_commands : list Command   (* newest first *)
}.

#[global] Instance EventType_eq_dec : EqDecision EventType.
Proof. solve_decision. Defined.
#[global] Instance Listener_eq_dec : EqDecision Listener.
Proof. solve_decision. Defined.

(** ** React state of the component (one field per [useState]) *)

Record State := {
  isPlaying : bool;
  progress : number;
  volume : number;
  isMuted : bool;
  duration : number;
  currentTime : number;
  isControlsVisible : bool
}.

(** A pending timeout: the time it is due and its callback.  The callback
    passed to [setTimeout] in [showControlsTemporarily] is a closure over the
    [isPlaying] constant of the render that created it, so the callback is
    represented by that captured value. *)
Record Timer := {
  due : Z;
  cb_isPlaying : bool
}.

(** Everything the handlers read and write. *)
Record Machine := {
  hooks : State;
  video : HTMLVideoElement;             (* the element the JSX renders *)
  videoRef : bool;                      (* videoRef.current is not null *)
  controlsTimeoutRef : option positive; (* controlsTimeoutRef.current *)
  timers : gmap positive Timer;         (* the host's pending timeouts *)
  next_timer : positive;                (* next handle setTimeout returns *)
  now : Z;                              (* host clock, in ms *)
  play_promises : nat;                  (* unsettled play() promises *)
  cleanup_listeners : bool;             (* the mount effect returned a cleanup *)
  mounted : bool
}.

Definition with_hooks (f : State → State) (m : Machine) : Machine :=
  {| hooks := f (hooks m); video := video m; videoRef := videoRef m;
     controlsTimeoutRef := controlsTimeoutRef m; timers := timers m;
     next_timer := next_timer m; now := now m;
     play_promises := play_promises m;
     cleanup_listeners := cleanup_listeners m; mounted := mounted m |}.

Definition with_video (f : HTMLVideoElement → HTMLVideoElement) (m : Machine)
  : Machine :=
  {| hooks := hooks m; video := f (video m); videoRef := videoRef m;
     controlsTimeoutRef := controlsTimeoutRef m; timers := timers m;
     next_timer := next_timer m; now := now m;
     play_promises := play_promises m;
     cleanup_listeners := cleanup_listeners m; mounted := mounted m |}.

(** ** A state monad over the machine *)

Definition M (A : Type) : Type := Machine → A * Machine.

#[global] Instance M_ret : MRet M := λ A (a : A) m, (a, m).
#[global] Instance M_bind : MBind M :=
  λ A B (k : A → M B) (c : M A) m, let '(a, m') := c m in k a m'.

Definition exec {A} (c : M A) (m : Machine) : Machine := snd (c m).
Definition eval {A} (c : M A) (m : Machine) : A := fst (c m).

Definition modify (f : Machine → Machine) : M unit := λ m, (tt, f m).
Definition gets {A} (f : Machine → A) : M A := λ m, (f m, m).
Definition skip : M unit := mret tt.
Definition when (b : bool) (c : M unit) : M unit := if b then c else skip.

(** *** State setters *)

Definition setIsPlaying (b : bool) : M unit :=
  modify (with_hooks (λ s,
    {| isPlaying := b; progress := progress s; volume := volume s;
       isMuted := isMuted s; duration := duration s;
       currentTime := currentTime s;
       isControlsVisible := isControlsVisible s |})).

Definition setProgress (x : number) : M unit :=
  modify (with_hooks (λ s,
    {| isPlaying := isPlaying s; progress := x; volume := volume s;
       isMuted := isMuted s; duration := duration s;
       currentTime := currentTime s;
       isControlsVisible := isControlsVisible s |})).

Definition setVolume (x : number) : M unit :=
  modify (with_hooks (λ s,
    {| isPlaying := isPlaying s; progress := progress s; volume := x;
       isMuted := isMuted s; duration := duration s;
       currentTime := currentTime s;
       isControlsVisible := isControlsVisible s |})).

Definition setIsMuted (b : bool) : M unit :=
  modify (with_hooks (λ s,
    {| isPlaying := isPlaying s; progress := progress s; volume := volume s;
       isMuted := b; duration := duration s;
       currentTime := currentTime s;
       isControlsVisible := isControlsVisible s |})).

Definition setDuration (x : number) : M unit :=
  modify (with_hooks (λ s,
    {| isPlaying := isPlaying s; progress := progress s; volume := volume s;
       isMuted := isMuted s; duration := x;
       currentTime := currentTime s;
       isControlsVisible := isControlsVisible s |})).

Definition setCurrentTime (x : number) : M unit :=
  modify (with_hooks (λ s,
    {| isPlaying := isPlaying s; progress := progress s; volume := volume s;
       isMuted := isMuted s; duration := duration s;
       currentTime := x;
       isControlsVisible := isControlsVisible s |})).

Definition setIsControlsVisible (b : bool) : M unit :=
  modify (with_hooks (λ s,
    {| isPlaying := isPlaying s; progress := progress s; volume := volume s;
       isMuted := isMuted s; duration := duration s;
       currentTime := currentTime s;
       isControlsVisible := b |})).

(** *** Operations on the video element *)

(** What a statement that may throw completes with. *)
Inductive Exception := TypeError.

Inductive Completion := Normal | Throw (e : Exception).

(** Run [k] after [c], unless [c] threw. *)
Definition and_then (c : M Completion) (k : M Completion) : M Completion :=
  x ← c ;
  match x with
  | Normal => k
  | Throw e => mret (Throw e)
  end.

(** [video.currentTime = t].  The setter takes a finite number: given [NaN]
    or an infinity it throws a [TypeError] and the element is not asked
    anything. *)
Definition video_set_currentTime (t : number) : M Completion :=
  if is_finite t then
    modify (with_video (λ v,
      {| v_currentTime := t; v_duration := v_duration v;
         v_volume := v_volume v; v_listeners := v_listeners v;
         v_commands := SetCurrentTime t :: v_commands v |})) ;;
    mret Normal
  else mret (Throw TypeError).

Definition video_set_volume (x : number) : M unit :=
  modify (with_video (λ v,
    {| v_currentTime := v_currentTime v; v_duration := v_duration v;
       v_volume := x; v_listeners := v_listeners v;
       v_commands := SetVolume x :: v_commands v |})).

Definition video_command (c : Command) : M unit :=
  modify (with_video (λ v,
    {| v_currentTime := v_currentTime v; v_duration := v_duration v;
       v_volume := v_volume v; v_listeners := v_listeners v;
       v_commands := c :: v_commands v |})).

Definition set_listeners (l : list (EventType * Listener))
    (v : HTMLVideoElement) : HTMLVideoElement :=
  {| v_currentTime := v_currentTime v; v_duration := v_duration v;
     v_volume := v_volume v; v_listeners := l;
     v_commands := v_commands v |}.

(** [addEventListener] ignores a listener that is already registered for
    the event; [removeEventListener] drops it. *)
Definition addEventListener (e : EventType) (h : Listener) : M unit :=
  modify (with_video (λ v,
    if bool_decide ((e, h) ∈ v_listeners v) then v
    else set_listeners (v_listeners v ++ [(e, h)]) v)).

Definition removeEventListener (e : EventType) (h : Listener) : M unit :=
  modify (with_video (λ v,
    set_listeners (filter (λ p, p ≠ (e, h)) (v_listeners v)) v)).

(** [video.play()] asks the element to play and returns a promise the host
    settles later. *)
Definition video_play : M unit :=
  video_command Play ;;
  modify (λ m,
    {| hooks := hooks m; video := video m; videoRef := videoRef m;
       controlsTimeoutRef := controlsTimeoutRef m; timers := timers m;
       next_timer := next_timer m; now := now m;
       play_promises := S (play_promises m);
       cleanup_listeners := cleanup_listeners m; mounted := mounted m |}).

Definition video_pause : M unit := video_command Pause.

(** *** Timers *)

Definition set_timers (t : gmap positive Timer) (m : Machine) : Machine :=
  {| hooks := hooks m; video := video m; videoRef := videoRef m;
     controlsTimeoutRef := controlsTimeoutRef m; timers := t;
     next_timer := next_timer m; now := now m;
     play_promises := play_promises m;
     cleanup_listeners := cleanup_listeners m; mounted := mounted m |}.

Definition clearTimeout (h : positive) : M unit :=
  modify (λ m, set_timers (delete h (timers m)) m).

Definition setTimeout (cb : bool) (delay : Z) : M positive :=
  λ m,
    let h := next_timer m in
    (h, {| hooks := hooks m; video := video m; videoRef := videoRef m;
           controlsTimeoutRef := controlsTimeoutRef m;
           timers := <[h := {| due := now m + delay; cb_isPlaying := cb |}]>
                       (timers m);
           next_timer := Pos.succ h; now := now m;
           play_promises := play_promises m;
           cleanup_listeners := cleanup_listeners m;
           mounted := mounted m |}).

Definition set_controlsTimeoutRef (r : option positive) : M unit :=
  modify (λ m,
    {| hooks := hooks m; video := video m; videoRef := videoRef m;
       controlsTimeoutRef := r; timers := timers m;
       next_timer := next_timer m; now := now m;
       play_promises := play_promises m;
       cleanup_listeners := cleanup_listeners m; mounted := mounted m |}).

(** ** The component

    Every function below that reads a state variable takes the render it was
    created in as [r]: a handler sees the values of that render, whatever the
    setters have been asked since. *)

(** The body of the timeout callback of [showControlsTemporarily]. *)
Definition hide_callback (captured_isPlaying : bool) : M unit :=
  when captured_isPlaying (setIsControlsVisible false).

Definition showControlsTemporarily (r : State) : M unit :=
  setIsControlsVisible true ;;
  ref ← gets controlsTimeoutRef ;
  match ref with
  | Some h => clearTimeout h
  | None => skip
  end ;;
  h ← setTimeout (isPlaying r) 3000 ;
  set_controlsTimeoutRef (Some h).

(** *** Listeners of the mount effect *)

Definition handleTimeUpdate : M unit :=
  v ← gets video ;
  setCurrentTime (v_currentTime v) ;;
  setProgress (mul (div (v_currentTime v) (v_duration v)) (num 100)).

Definition handleLoadedMetadata : M unit :=
  v ← gets video ;
  setDuration (v_duration v).

Definition handleEnded : M Completion :=
  setIsPlaying false ;;
  setProgress (num 0) ;;
  video_set_currentTime (num 0).

Definition listener_body (h : Listener) : M unit :=
  match h with
  | HandleTimeUpdate => handleTimeUpdate
  | HandleLoadedMetadata => handleLoadedMetadata
  | HandleEnded => handleEnded ;; skip
  end.

(** *** Effects *)

Definition set_cleanup_listeners (b : bool) : M unit :=
  modify (λ m,
    {| hooks := hooks m; video := video m; videoRef := videoRef m;
       controlsTimeoutRef := controlsTimeoutRef m; timers := timers m;
       next_timer := next_timer m; now := now m;
       play_promises := play_promises m;
       cleanup_listeners := b; mounted := mounted m |}).

(** [useEffect(..., [])]: subscribes when the element is there. *)
Definition effect_listeners : M unit :=
  ref ← gets videoRef ;
  if negb ref then skip
  else
    addEventListener timeupdate HandleTimeUpdate ;;
    addEventListener loadedmetadata HandleLoadedMetadata ;;
    addEventListener ended HandleEnded ;;
    set_cleanup_listeners true.

(** The function that effect returns. *)
Definition cleanup_effect_listeners : M unit :=
  removeEventListener timeupdate HandleTimeUpdate ;;
  removeEventListener loadedmetadata HandleLoadedMetadata ;;
  removeEventListener ended HandleEnded.

(** [useEffect(..., [isPlaying])].  The promise of [play()] carries the
    handler [() => setIsPlaying(false)] for its rejection. *)
Definition effect_playback (r : State) : M unit :=
  ref ← gets videoRef ;
  if negb ref then skip
  else if isPlaying r then video_play else video_pause.

(** [useEffect(..., [volume, isMuted])] *)
Definition effect_volume (r : State) : M unit :=
  ref ← gets videoRef ;
  if negb ref then skip
  else video_set_volume (if isMuted r then num 0 else volume r).

(** *** User handlers *)

Definition handlePlayPause (r : State) : M unit :=
  setIsPlaying (negb (isPlaying r)) ;;
  showControlsTemporarily r.

(** [newVolume] is [parseFloat(e.target.value)]. *)
Definition handleVolumeChange (r : State) (newVolume : number) : M unit :=
  setVolume newVolume ;;
  (if strict_eq newVolume (num 0) then setIsMuted true
   else if isMuted r then setIsMuted false
   else skip) ;;
  showControlsTemporarily r.

Definition handleMuteToggle (r : State) : M unit :=
  setIsMuted (negb (isMuted r)) ;;
  showControlsTemporarily r.

(** [newProgress] is [parseFloat(e.target.value)].  When the assignment to
    [video.currentTime] throws, the handler ends there: the progress already
    requested stays requested, and [showControlsTemporarily] is not
    reached. *)
Definition handleProgressChange (r : State) (newProgress : number)
  : M Completion :=
  ref ← gets videoRef ;
  if negb ref then mret Normal
  else
    v ← gets video ;
    setProgress newProgress ;;
    and_then
      (video_set_currentTime
         (mul (div newProgress (num 100)) (v_duration v)))
      (showControlsTemporarily r ;; mret Normal).

Definition handleVideoContainerInteraction (r : State) : M unit :=
  showControlsTemporarily r.

(** *** The promise of [play()] *)

Inductive Settled := Fulfilled | Rejected.

(** [p.catch(h)]: the promise it returns is fulfilled either way, after
    running [h] when [p] was rejected ([h] itself does not throw). *)
Definition promise_catch (p : Settled) (h : M unit) : M Settled :=
  match p with
  | Fulfilled => mret Fulfilled
  | Rejected => h ;; mret Fulfilled
  end.

(** The arrow function given to [catch] in the playback effect. *)
Definition on_play_rejected : M unit := setIsPlaying false.

(** ** React and the host: mounting, events, re-rendering *)

Definition initial_state (autoPlay : bool) : State :=
  {| isPlaying := autoPlay; progress := num 0; volume := Fin (Q2Qc (1 # 2));
     isMuted := false; duration := num 0; currentTime := num 0;
     isControlsVisible := true |}.

(** A media element before any data has arrived. *)
Definition fresh_video : HTMLVideoElement :=
  {| v_currentTime := num 0; v_duration := NaN; v_volume := num 1;
     v_listeners := []; v_commands := [] |}.

(** First render and its effects, in the order they are declared.
    [attached] says whether [videoRef.current] holds the element then. *)
Definition mount (autoPlay attached : bool) : Machine :=
  let s := initial_state autoPlay in
  exec (effect_listeners ;; effect_playback s ;; effect_volume s)
    {| hooks := s; video := fresh_video; videoRef := attached;
       controlsTimeoutRef := None; timers := ∅; next_timer := 1%positive;
       now := 0; play_promises := 0%nat; cleanup_listeners := false;
       mounted := true |}.

(** After the state changed from render [r], the effects whose dependencies
    changed run again, with the values of the new render. *)
Definition rerender (r : State) : M unit :=
  s ← gets hooks ;
  when (negb (eqb (isPlaying r) (isPlaying s))) (effect_playback s) ;;
  when (negb (object_is (volume r) (volume s)
              && eqb (isMuted r) (isMuted s)))
       (effect_volume s).

(** Run a callback of the component.  State updates requested after the
    component was unmounted are discarded. *)
Definition react (c : M unit) : M unit :=
  alive ← gets mounted ;
  r ← gets hooks ;
  c ;;
  if (alive : bool) then rerender r else modify (with_hooks (λ _, r)).

(** A handler bound in the JSX: it belongs to the latest render, and can
    only be reached while the component is in the document. *)
Definition user (handler : State → M unit) : M unit :=
  alive ← gets mounted ;
  r ← gets hooks ;
  if (alive : bool) then react (handler r) else skip.

Fixpoint run_listeners (e : EventType) (l : list (EventType * Listener))
  : M unit :=
  match l with
  | [] => skip
  | (e', h) :: l' =>
      when (bool_decide (e' = e)) (listener_body h) ;; run_listeners e l'
  end.

Inductive Event :=
| ClickPlayPause
| ChangeVolume (value : number)
| ClickMute
| ChangeProgress (value : number)
| PointerActivity
| Notify (e : EventType)
| HostMedia (t d : number)
| SettlePlay (p : Settled)
| TimerFire (h : positive)
| Elapse (ms : Z)
| Unmount.

Definition host_media (t d : number) : M unit :=
  modify (with_video (λ v,
    {| v_currentTime := t; v_duration := d; v_volume := v_volume v;
       v_listeners := v_listeners v; v_commands := v_commands v |})).

Definition take_play_promise : M bool :=
  λ m,
    match play_promises m with
    | O => (false, m)
    | S n =>
        (true,
         {| hooks := hooks m; video := video m; videoRef := videoRef m;
            controlsTimeoutRef := controlsTimeoutRef m; timers := timers m;
            next_timer := next_timer m; now := now m; play_promises := n;
            cleanup_listeners := cleanup_listeners m;
            mounted := mounted m |})
    end.

Definition elapse (ms : Z) : M unit :=
  modify (λ m,
    {| hooks := hooks m; video := video m; videoRef := videoRef m;
       controlsTimeoutRef := controlsTimeoutRef m; timers := timers m;
       next_timer := next_timer m; now := now m + Z.max 0 ms;
       play_promises := play_promises m;
       cleanup_listeners := cleanup_listeners m; mounted := mounted m |}).

(** The host runs a timeout once it is due, and forgets it. *)
Definition timer_fire (h : positive) : M unit :=
  ts ← gets timers ;
  t_now ← gets now ;
  match ts !! h with
  | Some t =>
      if bool_decide (due t ≤ t_now) then
        modify (set_timers (delete h ts)) ;;
        react (hide_callback (cb_isPlaying t))
      else skip
  | None => skip
  end.

Definition unmount : M unit :=
  alive ← gets mounted ;
  if (alive : bool) then
    hasCleanup ← gets cleanup_listeners ;
    when hasCleanup cleanup_effect_listeners ;;
    modify (λ m,
      {| hooks := hooks m; video := video m; videoRef := videoRef m;
         controlsTimeoutRef := controlsTimeoutRef m; timers := timers m;
         next_timer := next_timer m; now := now m;
         play_promises := play_promises m;
         cleanup_listeners := cleanup_listeners m; mounted := false |})
  else skip.

(** What each event runs.  An exception that leaves a handler goes to the
    host's error reporting; the state updates requested before it are
    kept. *)
Definition handle (ev : Event) : M unit :=
  match ev with
  | ClickPlayPause => user handlePlayPause
  | ChangeVolume x => user (λ r, handleVolumeChange r x)
  | ClickMute => user handleMuteToggle
  | ChangeProgress x => user (λ r, handleProgressChange r x ;; skip)
  | PointerActivity => user handleVideoContainerInteraction
  | Notify e =>
      l ← gets (λ m, v_listeners (video m)) ;
      react (run_listeners e l)
  | HostMedia t d => host_media t d
  | SettlePlay p =>
      pending ← take_play_promise ;
      when pending (react (promise_catch p on_play_rejected ;; skip))
  | TimerFire h => timer_fire h
  | Elapse ms => elapse ms
  | Unmount => unmount
  end.

Definition step (ev : Event) (m : Machine) : Machine := exec (handle ev) m.

Definition run (evs : list Event) (m : Machine) : Machine :=
  fold_left (λ m ev, step ev m) evs m.

(** Effective output volume of a render. *)
Definition effectiveVolume (s : State) : number :=
  if isMuted s then num 0 else volume s.

(** ** Time display

    The part of JavaScript arithmetic and printing [formatTime] needs.
    Quotients and remainders are the exact ones.  The numbers of the program
    are binary64: for a time below [2^53] flooring the rounded quotient
    gives the same whole number as flooring the exact one, and the remainder
    is exact; from [2^53] on that is no longer so, and the properties of
    [formatTime] below are stated for times below [2^53]. *)
Module JsMath.

(** [Math.floor(x)] *)
Definition math_floor (x : number) : number :=
  match x with
  | Fin q => Fin (Qc_of_Z (Qfloor q))
  | _ => x
  end.

(** The integer part of a rational, rounding towards zero. *)
Definition Qtrunc (q : Q) : Z :=
  if Qle_bool 0 q then Qfloor q else Qceiling q.

(** [x % y]: the remainder has the sign of the dividend. *)
Definition remainder (x y : number) : number :=
  match x, y with
  | NaN, _ | _, NaN => NaN
  | (PosInf | NegInf), _ => NaN
  | Fin a, (PosInf | NegInf) => Fin a
  | Fin a, Fin b =>
      if is_zero b then NaN
      else Fin (a - b * Qc_of_Z (Qtrunc (a / b)%Qc))%Qc
  end.

(** [x < y] *)
Definition less_than (x y : number) : bool :=
  match x, y with
  | NaN, _ | _, NaN => false
  | Fin a, Fin b => bool_decide (a < b)%Qc
  | NegInf, (Fin _ | PosInf) => true
  | Fin _, PosInf => true
  | _, _ => false
  end.

(** A number inside a template literal.  Whole numbers below [2^53] in
    magnitude print as their decimal digits, and the non-finite values by
    name.  The other cases (fractions, and larger numbers, which print the
    shortest digits that read back as the same binary64, padded with zeros
    or in exponent notation) are not modelled: [None]. *)
Definition to_string (x : number) : option String.string :=
  match x with
  | NaN => Some "NaN"%string
  | PosInf => Some "Infinity"%string
  | NegInf => Some "-Infinity"%string
  | Fin q =>
      if bool_decide (q = Qc_of_Z (Qfloor q))
         && bool_decide (Z.abs (Qfloor q) < 2 ^ 53)
      then Some (DecimalString.NilZero.string_of_int (Z.to_int (Qfloor q)))
      else None
  end.

End JsMath.

Import JsMath.

Definition formatTime (timeInSeconds : number) : option String.string :=
  let minutes := math_floor (div timeInSeconds (num 60)) in
  let seconds := math_floor (remainder timeInSeconds (num 60)) in
  match to_string minutes, to_string seconds with
  | Some m, Some s =>
      Some (String.append m
             (String.append ":"
                (String.append
                   (if less_than seconds (num 10) then "0" else "")
                   s)))%string
  | _, _ => None
  end.

(** Decimal notation of an integer. *)
Definition decimal (z : Z) : String.string :=
  DecimalString.NilZero.string_of_int (Z.to_int z).

(** The seconds part of the display: two characters for 0..59. *)
Definition seconds_text (s : Z) : String.string :=
  String.append (if s <? 10 then "0" else "") (decimal s).

(** The text up to the first colon, and the text after it. *)
Fixpoint split_colon (s : String.string)
  : option (String.string * String.string) :=
  match s with
  | EmptyString => None
  | String c s' =>
      if Ascii.eqb c ":" then Some (EmptyString, s')
      else match split_colon s' with
           | Some (a, b) => Some (String c a, b)
           | None => None
           end
  end.

(** ** Clicks that bubble

    The bar of controls stops the propagation of its clicks.  The play button
    laid over the paused video and the mute button in the corner do not:
    after the button's handler the click reaches the container, whose
    [onClick] is [handlePlayPause].  Both handlers belong to the same
    render. *)
Definition onClick_overlayPlay (r : State) : M unit :=
  handlePlayPause r ;; handlePlayPause r.

Definition onClick_cornerMute (r : State) : M unit :=
  handleMuteToggle r ;; handlePlayPause r.

Definition is_loadedmetadata (ev : Event) : bool :=
  match ev with
  | Notify loadedmetadata => true
  | _ => false
  end.

(** ** Scenarios *)

(** Autoplaying, 125 s into a 125 s clip, position mirrored into the state. *)
Definition at_end_of_clip : Machine :=
  run [HostMedia (num 125) (num 125); Notify timeupdate] (mount true true).

(** Playing; the pointer moves and the component is unmounted. *)
Definition unmounted_with_timer : Machine :=
  run [PointerActivity; Unmount] (mount true true).

(** Paused, the element reporting a duration of 0. *)
Definition zero_duration : Machine :=
  run [HostMedia (num 0) (num 0)] (mount false true).


(** Paused, before the element was attached to the ref. *)
Definition detached : Machine := mount false false.

(** Playing, 30 s into a two minute clip. *)
Definition quarter_way : Machine :=
  run [HostMedia (num 30) (num 120)] (mount true true).

(** Playing; the pointer moves, then the clip ends before the idle interval
    is over.  The state just before the timeout fires. *)
Definition ended_before_fire : Machine :=
  run [PointerActivity; Notify ended; Elapse 3000] (mount true true).

(** Playing; the user pauses.  The state three seconds later, just before
    the timeout of that click fires. *)
Definition paused_before_fire : Machine :=
  run [ClickPlayPause; Elapse 3000] (mount true true).

(** Paused; the pointer moved once already. *)
Definition paused_pointer_moved : list Event := [PointerActivity].

(** Muted by dragging the volume to 0. *)
Definition muted_by_slider : Machine :=
  run [ChangeVolume (num 0)] (mount false true).

(** ** Invariants *)

Definition component_listeners : list (EventType * Listener) :=
  [(timeupdate, HandleTimeUpdate); (loadedmetadata, HandleLoadedMetadata);
   (ended, HandleEnded)].

(** The element carries the three listeners exactly while a subscribed
    component is mounted. *)
Definition listeners_inv (m : Machine) : Prop :=
  v_listeners (video m) =
    if mounted m && cleanup_listeners m then component_listeners else [].

(** Every pending timeout is the one [controlsTimeoutRef] holds. *)
Definition timer_inv (m : Machine) : Prop :=
  timers m = ∅ ∨
  ∃ h t, timers m = {[h := t]} ∧ controlsTimeoutRef m = Some h.

(** [m'] has the subscriptions of [m]. *)
Definition same_subscription (m m' : Machine) : Prop :=
  v_listeners (video m') = v_listeners (video m) ∧
  mounted m' = mounted m ∧
  cleanup_listeners m' = cleanup_listeners m ∧
  videoRef m' = videoRef m.

(** [m'] has the timeouts of [m]. *)
Definition same_timers (m m' : Machine) : Prop :=
  timers m' = timers m ∧
  controlsTimeoutRef m' = controlsTimeoutRef m ∧
  next_timer m' = next_timer m ∧
  now m' = now m.

(** [m'] differs from [m] in nothing the timers, the subscriptions or the
    volume depend on. *)
Definition quiet (m m' : Machine) : Prop :=
  same_timers m m' ∧ same_subscription m m' ∧
  volume (hooks m') = volume (hooks m) ∧
  isMuted (hooks m') = isMuted (hooks m) ∧
  v_volume (video m') = v_volume (video m).

(** The latest [play()] or [pause()] among the commands (newest first):
    [true] for [play()]. *)
Fixpoint last_playback (cmds : list Command) : option bool :=
  match cmds with
  | [] => None
  | Play :: _ => Some true
  | Pause :: _ => Some false
  | _ :: cmds' => last_playback cmds'
  end.

(** The element was last told to play exactly when [isPlaying] holds. *)
Definition playback_inv (m : Machine) : Prop :=
  videoRef m = true →
  last_playback (v_commands (video m)) = Some (isPlaying (hooks m)).

(** [m'] has the ref and the latest playback command of [m]. *)
Definition same_playback (m m' : Machine) : Prop :=
  last_playback (v_commands (video m'))
    = last_playback (v_commands (video m)) ∧
  videoRef m' = videoRef m.

(** The events that reach a handler of the command dispatcher. *)
Definition dispatcher_event (ev : Event) : bool :=
  match ev with
  | ClickPlayPause | ChangeVolume _ | ClickMute | ChangeProgress _
  | PointerActivity => true
  | _ => false
  end.

(** Whether the handler of an event runs to its end: the scrub handler does
    not when its seek target is not a finite number. *)
Definition runs_to_end (ev : Event) (m : Machine) : bool :=
  match ev with
  | ChangeProgress x =>
      is_finite (mul (div x (num 100)) (v_duration (video m)))
  | _ => true
  end.

(** Mounted without its element, the component has left the element and
    the mirrored position alone. *)
Definition untouched (m : Machine) : Prop :=
  videoRef m = false ∧
  v_commands (video m) = [] ∧ v_listeners (video m) = [] ∧
  play_promises m = 0%nat ∧
  progress (hooks m) = num 0 ∧ currentTime (hooks m) = num 0 ∧
  duration (hooks m) = num 0.

(** The element's volume is the effective volume of the current render. *)
Definition volume_inv (m : Machine) : Prop :=
  videoRef m = true → v_volume (video m) = effectiveVolume (hooks m).

(** * Properties *)

(** ** Unfolding the monad *)

Ltac unfold_m :=
  cbv [exec eval mbind mret M_bind M_ret modify gets skip when and_then
       setIsPlaying setProgress setVolume setIsMuted setDuration
       setCurrentTime setIsControlsVisible
       video_set_currentTime video_set_volume video_command video_play
       video_pause clearTimeout setTimeout set_controlsTimeoutRef
       set_cleanup_listeners with_hooks with_video set_timers].

(** Reduce record projections and boolean tests, leaving the maps alone. *)
Ltac fields :=
  cbn [hooks video videoRef controlsTimeoutRef timers next_timer now
       play_promises cleanup_listeners mounted
       isPlaying progress volume isMuted duration currentTime
       isControlsVisible
       v_currentTime v_duration v_volume v_listeners v_commands
       fst snd negb andb orb eqb last_playback].

Ltac fields_in H :=
  cbn [hooks video videoRef controlsTimeoutRef timers next_timer now
       play_promises cleanup_listeners mounted
       isPlaying progress volume isMuted duration currentTime
       isControlsVisible
       v_currentTime v_duration v_volume v_listeners v_commands
       fst snd negb andb orb eqb last_playback] in H.

(** ** Facts about numbers *)

Lemma Qc_of_Z_inj (a b : Z) : Qc_of_Z a = Qc_of_Z b → a = b.
Proof. intros H. injection H. tauto. Qed.

Lemma is_zero_true (q : Qc) : is_zero q = true ↔ q = Qc_of_Z 0.
Proof. unfold is_zero. apply bool_decide_eq_true. Qed.

Lemma is_zero_false (q : Qc) : is_zero q = false ↔ q ≠ Qc_of_Z 0.
Proof. unfold is_zero. apply bool_decide_eq_false. Qed.

Lemma Qc_of_Z_0 : Qc_of_Z 0 = 0%Qc.
Proof. apply Qc_is_canon. reflexivity. Qed.


Lemma object_is_eq (x y : number) : object_is x y = true → x = y.
Proof.
  destruct x, y; simpl; try discriminate; try reflexivity.
  intros H. apply bool_decide_eq_true in H. now subst.
Qed.

Lemma object_is_refl (x : number) : object_is x x = true.
Proof. destruct x; simpl; try reflexivity. now apply bool_decide_eq_true. Qed.

Lemma num_neq (a b : Z) : a ≠ b → num a ≠ num b.
Proof. intros Hab E. injection E. tauto. Qed.

(** ** Event bridge *)

(** C1 (as the code has it): whatever the prior state, [handleEnded] leaves
    [isPlaying = false] and [progress = 0] and seeks the element to 0; the
    [currentTime] state variable and every other state variable keep their
    values, and nothing but the element's position and command log changes
    outside the state. *)
Theorem handleEnded_resets_progress_not_currentTime (m : Machine) :
  let m' := exec handleEnded m in
  isPlaying (hooks m') = false ∧
  progress (hooks m') = num 0 ∧
  currentTime (hooks m') = currentTime (hooks m) ∧
  volume (hooks m') = volume (hooks m) ∧
  isMuted (hooks m') = isMuted (hooks m) ∧
  duration (hooks m') = duration (hooks m) ∧
  isControlsVisible (hooks m') = isControlsVisible (hooks m) ∧
  v_currentTime (video m') = num 0 ∧
  v_commands (video m') = SetCurrentTime (num 0) :: v_commands (video m) ∧
  timers m' = timers m ∧
  controlsTimeoutRef m' = controlsTimeoutRef m.
Proof. unfold handleEnded. unfold_m. simpl. repeat split. Qed.

(** C1, counterexample: at the end of a 125 s clip the "ended" notification
    leaves the [currentTime] state at 125, not 0. *)
Lemma ended_leaves_currentTime_stale :
  let m' := step (Notify ended) at_end_of_clip in
  currentTime (hooks at_end_of_clip) = num 125 ∧
  isPlaying (hooks m') = false ∧
  progress (hooks m') = num 0 ∧
  currentTime (hooks m') = num 125 ∧
  currentTime (hooks m') ≠ num 0.
Proof.
  cbv zeta.
  assert (E : currentTime (hooks (step (Notify ended) at_end_of_clip))
              = num 125) by (vm_compute; reflexivity).
  rewrite E. repeat split; try (vm_compute; reflexivity).
  now apply num_neq.
Qed.

Lemma Qc_of_Z_100_nonneg : (0 ≤ Qc_of_Z 100)%Qc.
Proof. vm_compute. discriminate. Qed.

Lemma Qc_pos_neq_0 (d : Qc) : (0 < d)%Qc → d ≠ Qc_of_Z 0.
Proof.
  intros Hd E. rewrite Qc_of_Z_0 in E. subst d.
  now apply (Qclt_not_eq 0 0)%Qc in Hd.
Qed.

(** A fraction of a positive whole, as a percentage, is between 0 and 100. *)
Lemma percent_bounds (t d : Qc) :
  (0 < d)%Qc → (0 ≤ t)%Qc → (t ≤ d)%Qc →
  (0 ≤ t / d * Qc_of_Z 100)%Qc ∧ (t / d * Qc_of_Z 100 ≤ Qc_of_Z 100)%Qc.
Proof.
  intros Hd Ht0 Htd.
  assert (Hne : d ≠ 0%Qc) by (intros E; subst d; now apply (Qclt_not_eq 0 0)%Qc in Hd).
  assert (Hq : (t / d * d = t)%Qc).
  { rewrite Qcmult_comm. now apply Qcmult_div_r. }
  assert (Hq0 : (0 ≤ t / d)%Qc).
  { apply (Qcmult_lt_0_le_reg_r _ _ d Hd). now rewrite Qcmult_0_l, Hq. }
  assert (Hq1 : (t / d ≤ 1)%Qc).
  { apply (Qcmult_lt_0_le_reg_r _ _ d Hd). now rewrite Qcmult_1_l, Hq. }
  split.
  - rewrite <- (Qcmult_0_l (Qc_of_Z 100)).
    apply Qcmult_le_compat_r; [exact Hq0 | exact Qc_of_Z_100_nonneg].
  - rewrite <- (Qcmult_1_l (Qc_of_Z 100)) at 2.
    apply Qcmult_le_compat_r; [exact Hq1 | exact Qc_of_Z_100_nonneg].
Qed.

Lemma div_by_zero_not_finite (x : number) :
  is_finite (mul (div x (num 0)) (num 100)) = false.
Proof.
  assert (Z0 : is_zero (Qc_of_Z 0) = true) by now apply is_zero_true.
  assert (N0 : is_neg (Qc_of_Z 0) = false) by (vm_compute; reflexivity).
  assert (Z100 : is_zero (Qc_of_Z 100) = false) by (vm_compute; reflexivity).
  assert (N100 : is_neg (Qc_of_Z 100) = false) by (vm_compute; reflexivity).
  destruct x as [a | | |]; unfold div, mul, num;
    rewrite ?Z0, ?N0, ?Z100, ?N100; try reflexivity.
  destruct (is_zero a); [reflexivity |].
  destruct (is_neg a); reflexivity.
Qed.

(** C4 (as the code has it): on a "time advanced" notification the handler
    copies the element's current time into the state and sets [progress] to
    [currentTime / duration * 100] computed from the element's values.  When
    the element reports a finite duration [d > 0] and a time [0 ≤ t ≤ d],
    that is the number [t / d * 100], which lies in [0, 100].  The division is
    not guarded: whatever the current time, a duration of 0 or an unknown
    duration ([NaN]) gives a [progress] that is not a finite number. *)
Theorem handleTimeUpdate_progress (m : Machine) (t d : Qc) :
  v_currentTime (video m) = Fin t →
  v_duration (video m) = Fin d →
  (0 < d)%Qc → (0 ≤ t)%Qc → (t ≤ d)%Qc →
  let m' := exec handleTimeUpdate m in
  currentTime (hooks m') = Fin t ∧
  progress (hooks m') = Fin (t / d * Qc_of_Z 100)%Qc ∧
  (0 ≤ t / d * Qc_of_Z 100)%Qc ∧ (t / d * Qc_of_Z 100 ≤ Qc_of_Z 100)%Qc ∧
  (∀ x : number,
     let m0 := exec (host_media x (num 0)) m in
     currentTime (hooks (exec handleTimeUpdate m0)) = x ∧
     is_finite (progress (hooks (exec handleTimeUpdate m0))) = false) ∧
  (∀ x : number,
     let m0 := exec (host_media x NaN) m in
     progress (hooks (exec handleTimeUpdate m0)) = NaN).
Proof.
  intros Ht Hdur Hd Ht0 Htd.
  unfold handleTimeUpdate, host_media. unfold_m. simpl.
  rewrite Ht, Hdur.
  assert (Hz : is_zero d = false) by (apply is_zero_false; now apply Qc_pos_neq_0).
  assert (E : mul (div (Fin t) (Fin d)) (num 100)
              = Fin (t / d * Qc_of_Z 100)%Qc).
  { unfold div, mul, num. now rewrite Hz. }
  rewrite E.
  destruct (percent_bounds t d Hd Ht0 Htd) as [Hlo Hhi].
  repeat split; try assumption.
  - apply div_by_zero_not_finite.
  - destruct x; reflexivity.
Qed.

(** C4, witness: 30 s into a 120 s clip. *)
Lemma handleTimeUpdate_progress_witness :
  v_currentTime (video quarter_way) = Fin (Qc_of_Z 30) ∧
  v_duration (video quarter_way) = Fin (Qc_of_Z 120) ∧
  (0 < Qc_of_Z 120)%Qc ∧ (0 ≤ Qc_of_Z 30)%Qc ∧
  (Qc_of_Z 30 ≤ Qc_of_Z 120)%Qc ∧
  progress (hooks (exec handleTimeUpdate quarter_way))
    = Fin (Qc_of_Z 30 / Qc_of_Z 120 * Qc_of_Z 100)%Qc.
Proof.
  assert (H1 : v_currentTime (video quarter_way) = Fin (Qc_of_Z 30))
    by (vm_compute; reflexivity).
  assert (H2 : v_duration (video quarter_way) = Fin (Qc_of_Z 120))
    by (vm_compute; reflexivity).
  assert (H3 : (0 < Qc_of_Z 120)%Qc) by reflexivity.
  assert (H4 : (0 ≤ Qc_of_Z 30)%Qc) by (vm_compute; discriminate).
  assert (H5 : (Qc_of_Z 30 ≤ Qc_of_Z 120)%Qc) by (vm_compute; discriminate).
  repeat (split; [assumption |]).
  exact (proj1 (proj2 (handleTimeUpdate_progress quarter_way (Qc_of_Z 30)
                         (Qc_of_Z 120) H1 H2 H3 H4 H5))).
Defined.

(** C4, counterexample: with the element reporting duration 0 (and time 0),
    a "time advanced" notification makes [progress] [NaN], not 0. *)
Lemma timeupdate_zero_duration_is_NaN :
  v_duration (video zero_duration) = num 0 ∧
  progress (hooks (step (Notify timeupdate) zero_duration)) = NaN ∧
  progress (hooks (step (Notify timeupdate) zero_duration)) ≠ num 0.
Proof.
  assert (E : progress (hooks (step (Notify timeupdate) zero_duration)) = NaN)
    by (vm_compute; reflexivity).
  rewrite E. repeat split. discriminate.
Qed.

(** ** Visibility timer *)

Ltac unfold_step :=
  cbv [step handle user react rerender timer_fire unmount elapse host_media
       take_play_promise promise_catch on_play_rejected hide_callback
       handlePlayPause handleVolumeChange handleMuteToggle
       handleProgressChange handleVideoContainerInteraction
       showControlsTemporarily effect_playback effect_volume
       effect_listeners cleanup_effect_listeners
       addEventListener removeEventListener];
  unfold_m.

(** When a due timeout fires on a mounted component, the controls are
    hidden exactly when the [isPlaying] its callback closed over was true;
    the state at firing time is not consulted. *)
Lemma timer_fire_hides_by_captured (m : Machine) (h : positive) (t : Timer) :
  timers m !! h = Some t → due t ≤ now m → mounted m = true →
  let m' := step (TimerFire h) m in
  isControlsVisible (hooks m') =
    (if cb_isPlaying t then false else isControlsVisible (hooks m)) ∧
  isPlaying (hooks m') = isPlaying (hooks m) ∧
  timers m' = delete h (timers m).
Proof.
  intros Ht Hdue Hm. destruct m as [s v vr ref ts nx t_now pp cl mt].
  simpl in *. subst mt. unfold_step. simpl. rewrite Ht.
  rewrite (bool_decide_eq_true_2 _ Hdue).
  destruct (cb_isPlaying t); simpl;
    rewrite ?eqb_reflx, ?object_is_refl; simpl; auto.
Qed.

(** C2 (what the code does at the failing inputs): playback stops between
    the call of [showControlsTemporarily] and the firing of its timeout,
    once because the clip ended and once because the user paused.  At
    firing time [isPlaying] is false and the controls are visible; the
    timeout still hides them, because its callback tests the [isPlaying] of
    the render that scheduled it. *)
Theorem hide_timeout_tests_captured_isPlaying :
  (isPlaying (hooks ended_before_fire) = false ∧
   isControlsVisible (hooks ended_before_fire) = true ∧
   timers ended_before_fire !! 1%positive
     = Some {| due := 3000; cb_isPlaying := true |} ∧
   isPlaying (hooks (step (TimerFire 1%positive) ended_before_fire)) = false ∧
   isControlsVisible (hooks (step (TimerFire 1%positive) ended_before_fire))
     = false) ∧
  (isPlaying (hooks paused_before_fire) = false ∧
   isControlsVisible (hooks paused_before_fire) = true ∧
   timers paused_before_fire !! 1%positive
     = Some {| due := 3000; cb_isPlaying := true |} ∧
   isPlaying (hooks (step (TimerFire 1%positive) paused_before_fire)) = false ∧
   isControlsVisible (hooks (step (TimerFire 1%positive) paused_before_fire))
     = false).
Proof. repeat split; vm_compute; reflexivity. Qed.

Lemma exec_bind {A B} (c : M A) (k : A → M B) (m : Machine) :
  exec (c ≫= k) m = exec (k (eval c m)) (exec c m).
Proof. unfold exec, eval, mbind, M_bind. now destruct (c m). Qed.

Lemma exec_then_skip {A} (c : M A) (m : Machine) :
  exec (c ;; skip) m = exec c m.
Proof. unfold exec, mbind, M_bind, skip, mret, M_ret. now destruct (c m). Qed.

(** What [showControlsTemporarily] leaves behind when at most the timeout
    held by the ref was pending: the controls visible, and exactly one
    timeout, due 3000 ms from now, closed over the [isPlaying] of [r]. *)
Lemma showControlsTemporarily_exec (r : State) (m : Machine) :
  timer_inv m →
  exec (showControlsTemporarily r) m =
    {| hooks := hooks (exec (setIsControlsVisible true) m);
       video := video m; videoRef := videoRef m;
       controlsTimeoutRef := Some (next_timer m);
       timers := {[ next_timer m :=
                      {| due := now m + 3000; cb_isPlaying := isPlaying r |} ]};
       next_timer := Pos.succ (next_timer m); now := now m;
       play_promises := play_promises m;
       cleanup_listeners := cleanup_listeners m; mounted := mounted m |}.
Proof.
  intros [E | (h & t & E & R)]; destruct m as [s v vr ref ts nx t_now pp cl mt];
    simpl in *; subst.
  - unfold showControlsTemporarily. unfold_m. simpl.
    destruct ref; simpl; now rewrite ?delete_empty, insert_empty.
  - unfold showControlsTemporarily. unfold_m. simpl.
    now rewrite delete_singleton_eq, insert_empty.
Qed.

Lemma showControlsTemporarily_timer_inv (r : State) (m : Machine) :
  timer_inv m → timer_inv (exec (showControlsTemporarily r) m).
Proof.
  intros H. rewrite (showControlsTemporarily_exec r m H).
  right. simpl. eauto.
Qed.

(** ** Frame lemmas: what each part of the component leaves alone *)

Ltac break_machine m :=
  let s := fresh "s" in
  destruct m as [s ? ? ? ? ? ? ? ? ?]; destruct s; simpl in *.

Ltac brute :=
  unfold_step; simpl; repeat (case_match; simplify_eq/=); auto.

Lemma react_exec (c : M unit) (m : Machine) :
  exec (react c) m =
    if mounted m then exec (rerender (hooks m)) (exec c m)
    else with_hooks (λ _, hooks m) (exec c m).
Proof.
  unfold react. unfold_m. simpl. destruct (c m) as [[] m'].
  now destruct (mounted m).
Qed.

Lemma user_exec (handler : State → M unit) (m : Machine) :
  exec (user handler) m =
    if mounted m then exec (rerender (hooks m)) (exec (handler (hooks m)) m)
    else m.
Proof.
  unfold user. unfold exec at 1. unfold mbind, M_bind, gets. simpl.
  destruct (mounted m) eqn:E; [| reflexivity].
  fold (exec (react (handler (hooks m))) m). now rewrite react_exec, E.
Qed.

Lemma rerender_frame (r : State) (m : Machine) :
  let m' := exec (rerender r) m in
  hooks m' = hooks m ∧ same_timers m m' ∧ same_subscription m m'.
Proof.
  break_machine m. unfold same_timers, same_subscription. brute.
  all: repeat split.
Qed.

Lemma listener_body_frame (h : Listener) (m : Machine) :
  let m' := exec (listener_body h) m in
  same_timers m m' ∧ same_subscription m m' ∧
  volume (hooks m') = volume (hooks m) ∧ isMuted (hooks m') = isMuted (hooks m)
  ∧ v_volume (video m') = v_volume (video m).
Proof.
  break_machine m. unfold same_timers, same_subscription.
  destruct h; unfold listener_body, handleTimeUpdate, handleLoadedMetadata,
    handleEnded; unfold_m; simpl; repeat split.
Qed.

Lemma quiet_refl (m : Machine) : quiet m m.
Proof. repeat split. Qed.

Lemma quiet_trans (m1 m2 m3 : Machine) : quiet m1 m2 → quiet m2 m3 → quiet m1 m3.
Proof.
  unfold quiet, same_timers, same_subscription.
  intros H12 H23. destruct_and!. repeat split; congruence.
Qed.

Lemma run_listeners_quiet (e : EventType) (l : list (EventType * Listener))
    (m : Machine) :
  quiet m (exec (run_listeners e l) m).
Proof.
  revert m. induction l as [| [e' h] l IH]; intros m.
  - apply quiet_refl.
  - cbn [run_listeners]. rewrite exec_bind.
    eapply quiet_trans; [| apply IH].
    unfold when. destruct (bool_decide (e' = e)); [| apply quiet_refl].
    pose proof (listener_body_frame h m) as F. cbv zeta in F.
    unfold quiet. tauto.
Qed.

Lemma handlePlayPause_same_subscription (r : State) (m : Machine) :
  same_subscription m (exec (handlePlayPause r) m).
Proof. unfold same_subscription. break_machine m. repeat split; brute. Qed.

Lemma handleMuteToggle_same_subscription (r : State) (m : Machine) :
  same_subscription m (exec (handleMuteToggle r) m).
Proof. unfold same_subscription. break_machine m. repeat split; brute. Qed.

Lemma handleVideoContainerInteraction_same_subscription (r : State)
    (m : Machine) :
  same_subscription m (exec (handleVideoContainerInteraction r) m).
Proof. unfold same_subscription. break_machine m. repeat split; brute. Qed.

Lemma handleVolumeChange_same_subscription (x : number) (r : State)
    (m : Machine) :
  same_subscription m (exec (handleVolumeChange r x) m).
Proof. unfold same_subscription. break_machine m. repeat split; brute. Qed.

Lemma handleProgressChange_same_subscription (x : number) (r : State)
    (m : Machine) :
  same_subscription m (exec (handleProgressChange r x) m).
Proof. unfold same_subscription. break_machine m. repeat split; brute. Qed.

Lemma same_subscription_trans (m1 m2 m3 : Machine) :
  same_subscription m1 m2 → same_subscription m2 m3 → same_subscription m1 m3.
Proof.
  unfold same_subscription. intros. destruct_and!. repeat split; congruence.
Qed.

Lemma user_same_subscription (handler : State → M unit) (m : Machine) :
  (∀ r m0, same_subscription m0 (exec (handler r) m0)) →
  same_subscription m (exec (user handler) m).
Proof.
  intros H. rewrite user_exec. destruct (mounted m); [| repeat split].
  eapply same_subscription_trans; [apply H |].
  apply (rerender_frame (hooks m)).
Qed.

Lemma react_same_subscription (c : M unit) (m : Machine) :
  same_subscription m (exec c m) → same_subscription m (exec (react c) m).
Proof.
  intros H. rewrite react_exec. destruct (mounted m).
  - eapply same_subscription_trans; [apply H |]. apply (rerender_frame (hooks m)).
  - exact H.
Qed.

(** Only unmounting touches the subscriptions. *)
Lemma step_same_subscription (ev : Event) (m : Machine) :
  ev ≠ Unmount → same_subscription m (step ev m).
Proof.
  intros Hev. unfold step.
  destruct ev; cbn [handle]; try congruence.
  - apply user_same_subscription, handlePlayPause_same_subscription.
  - apply user_same_subscription, handleVolumeChange_same_subscription.
  - apply user_same_subscription, handleMuteToggle_same_subscription.
  - apply user_same_subscription. intros r m0. rewrite exec_then_skip.
    apply handleProgressChange_same_subscription.
  - apply user_same_subscription,
      handleVideoContainerInteraction_same_subscription.
  - rewrite exec_bind. unfold eval, gets at 1. cbn [fst].
    replace (exec (gets (λ m0, v_listeners (video m0))) m) with m by reflexivity.
    apply react_same_subscription. apply run_listeners_quiet.
  - repeat split.
  - rewrite exec_bind.
    assert (S0 : same_subscription m (exec take_play_promise m)).
    { unfold take_play_promise, exec. destruct (play_promises m); repeat split. }
    eapply same_subscription_trans; [exact S0 |].
    unfold when. destruct (eval take_play_promise m); [| repeat split].
    apply react_same_subscription. destruct p; repeat split.
  - unfold timer_fire. rewrite !exec_bind. unfold eval, gets. cbn [fst].
    change (exec (λ m0, (timers m0, m0)) m) with m.
    change (exec (λ m0, (now m0, m0)) m) with m.
    destruct (timers m !! h) as [t |]; [| repeat split].
    case_bool_decide; [| repeat split].
    rewrite exec_bind.
    eapply same_subscription_trans; [| apply react_same_subscription].
    + repeat split.
    + destruct (cb_isPlaying t); repeat split.
  - repeat split.
Qed.

(** ** Subscription life cycle *)

Lemma mount_listeners_inv (autoPlay attached : bool) :
  listeners_inv (mount autoPlay attached).
Proof. destruct autoPlay, attached; vm_compute; reflexivity. Qed.

Lemma unmount_listeners (m : Machine) :
  listeners_inv m →
  v_listeners (video (step Unmount m)) = [] ∧ mounted (step Unmount m) = false.
Proof.
  unfold listeners_inv. break_machine m. intros H.
  unfold step, handle, unmount, cleanup_effect_listeners, removeEventListener.
  unfold_m. simpl.
  repeat (case_match; simplify_eq/=); auto.
  rewrite H. split; [vm_compute |]; reflexivity.
Qed.

Lemma step_listeners_inv (ev : Event) (m : Machine) :
  listeners_inv m → listeners_inv (step ev m).
Proof.
  intros H.
  assert (ev = Unmount ∨ ev ≠ Unmount) as [-> | Hev]
    by (destruct ev; (now left) || (now right)).
  - destruct (unmount_listeners m H) as [L Mt].
    unfold listeners_inv. now rewrite L, Mt.
  - destruct (step_same_subscription ev m Hev) as (L & Mt & Cl & _).
    unfold listeners_inv in *. now rewrite L, Mt, Cl.
Qed.

Lemma run_listeners_inv (evs : list Event) (m : Machine) :
  listeners_inv m → listeners_inv (run evs m).
Proof.
  revert m. induction evs as [| ev evs IH]; intros m H; [exact H |].
  apply IH, step_listeners_inv, H.
Qed.

Lemma unmount_keeps_timers (m : Machine) : same_timers m (step Unmount m).
Proof.
  unfold same_timers. break_machine m.
  unfold step, handle, unmount, cleanup_effect_listeners, removeEventListener.
  unfold_m. simpl. repeat (case_match; simplify_eq/=); auto.
Qed.

Lemma notify_without_listeners (e : EventType) (m : Machine) :
  v_listeners (video m) = [] → mounted m = false → step (Notify e) m = m.
Proof.
  intros L Mt. unfold step. cbn [handle]. rewrite exec_bind.
  unfold eval, gets at 1. cbn [fst]. rewrite L.
  change (exec (gets (λ m0, v_listeners (video m0))) m) with m.
  rewrite react_exec, Mt. cbn [run_listeners]. unfold_m.
  destruct m as [s ? ? ? ? ? ? ? ? ?]. reflexivity.
Qed.

(** C3 (as the code has it): however the component got there, from mounting
    with or without the element and through any events (so also before any
    metadata arrived), unmounting leaves none of the component's listeners
    on the element, and a notification of the element then runs nothing and
    changes nothing.  Unmounting does not touch the timeouts: the pending
    hide timeout and [controlsTimeoutRef] are what they were before. *)
Theorem unmount_unsubscribes_keeps_timeout (autoPlay attached : bool)
    (evs : list Event) :
  let m := run evs (mount autoPlay attached) in
  let m' := step Unmount m in
  v_listeners (video m') = [] ∧
  mounted m' = false ∧
  (∀ e : EventType, step (Notify e) m' = m') ∧
  timers m' = timers m ∧
  controlsTimeoutRef m' = controlsTimeoutRef m.
Proof.
  intros m m'.
  assert (Inv : listeners_inv m)
    by apply run_listeners_inv, mount_listeners_inv.
  destruct (unmount_listeners m Inv) as [L Mt].
  destruct (unmount_keeps_timers m) as (T & R & _).
  repeat split; try assumption.
  intros e. now apply notify_without_listeners.
Qed.

(** C3, counterexample: a hide timeout scheduled while playing is still
    pending after the component was unmounted, and fires when it is due. *)
Lemma unmount_leaves_timeout_pending :
  mounted unmounted_with_timer = false ∧
  timers unmounted_with_timer !! 1%positive
    = Some {| due := 3000; cb_isPlaying := true |} ∧
  timers unmounted_with_timer ≠ ∅ ∧
  timers (run [Elapse 3000; TimerFire 1%positive] unmounted_with_timer) = ∅.
Proof.
  assert (E : timers unmounted_with_timer !! 1%positive
              = Some {| due := 3000; cb_isPlaying := true |})
    by (vm_compute; reflexivity).
  repeat split; try (vm_compute; reflexivity); try exact E.
  intros N. rewrite N in E. discriminate.
Qed.

(** ** One pending timeout *)

Lemma timer_inv_ext (m m' : Machine) :
  timers m' = timers m → controlsTimeoutRef m' = controlsTimeoutRef m →
  timer_inv m → timer_inv m'.
Proof. unfold timer_inv. intros -> ->. tauto. Qed.

Lemma timer_inv_size (m : Machine) : timer_inv m → (size (timers m) ≤ 1)%nat.
Proof.
  intros [E | (h & t & E & _)]; rewrite E.
  - rewrite map_size_empty. lia.
  - rewrite map_size_singleton. lia.
Qed.

Lemma timer_inv_delete (h : positive) (m m' : Machine) :
  timers m' = delete h (timers m) →
  controlsTimeoutRef m' = controlsTimeoutRef m →
  timer_inv m → timer_inv m'.
Proof.
  unfold timer_inv. intros -> ->. intros [E | (h0 & t & E & R)]; rewrite E.
  - left. apply delete_empty.
  - destruct (decide (h = h0)) as [-> | Hne].
    + left. apply delete_singleton_eq.
    + right. exists h0, t. split; [| exact R].
      now apply delete_singleton_ne.
Qed.

Lemma mount_timer_inv (autoPlay attached : bool) :
  timer_inv (mount autoPlay attached).
Proof. left. destruct autoPlay, attached; reflexivity. Qed.

Lemma user_timer_inv (handler : State → M unit) (m : Machine) :
  (∀ r m0, timer_inv m0 → timer_inv (exec (handler r) m0)) →
  timer_inv m → timer_inv (exec (user handler) m).
Proof.
  intros H Inv. rewrite user_exec. destruct (mounted m); [| exact Inv].
  destruct (rerender_frame (hooks m) (exec (handler (hooks m)) m))
    as (_ & (T & R & _) & _).
  eapply timer_inv_ext; [exact T | exact R |]. now apply H.
Qed.

Lemma setters_then_show_timer_inv (r : State) (c : M unit) (m : Machine) :
  (∀ m0, timers (exec c m0) = timers m0 ∧
         controlsTimeoutRef (exec c m0) = controlsTimeoutRef m0) →
  timer_inv m → timer_inv (exec (c ;; showControlsTemporarily r) m).
Proof.
  intros Hc Inv. rewrite exec_bind. apply showControlsTemporarily_timer_inv.
  destruct (Hc m) as [T R]. now apply (timer_inv_ext m).
Qed.

Lemma handlePlayPause_timer_inv (r : State) (m : Machine) :
  timer_inv m → timer_inv (exec (handlePlayPause r) m).
Proof.
  unfold handlePlayPause.
  apply (setters_then_show_timer_inv r (setIsPlaying (negb (isPlaying r)))).
  intros; split; reflexivity.
Qed.

Lemma handleMuteToggle_timer_inv (r : State) (m : Machine) :
  timer_inv m → timer_inv (exec (handleMuteToggle r) m).
Proof.
  unfold handleMuteToggle.
  apply (setters_then_show_timer_inv r (setIsMuted (negb (isMuted r)))).
  intros; split; reflexivity.
Qed.

Lemma handleVolumeChange_timer_inv (x : number) (r : State) (m : Machine) :
  timer_inv m → timer_inv (exec (handleVolumeChange r x) m).
Proof.
  intros Inv. unfold handleVolumeChange. rewrite exec_bind.
  apply setters_then_show_timer_inv.
  - intros m0. destruct (strict_eq x (num 0)), (isMuted r); split; reflexivity.
  - eapply timer_inv_ext; [| | exact Inv]; reflexivity.
Qed.

(** The scrub handler, case by case: no element, a finite seek target, a
    target the setter rejects. *)
Lemma handleProgressChange_exec (r : State) (x : number) (m : Machine) :
  exec (handleProgressChange r x) m =
    if videoRef m then
      if is_finite (mul (div x (num 100)) (v_duration (video m))) then
        exec (showControlsTemporarily r)
          (exec (setProgress x ;;
                 video_set_currentTime
                   (mul (div x (num 100)) (v_duration (video m)))) m)
      else exec (setProgress x) m
    else m.
Proof.
  unfold handleProgressChange, and_then, video_set_currentTime.
  unfold exec, mbind, M_bind, mret, M_ret, gets. cbn [fst snd].
  destruct (videoRef m); cbn [negb]; [| reflexivity].
  destruct (setProgress x m) as [[] m0] eqn:E0. cbn [fst snd].
  destruct (is_finite (mul (div x (num 100)) (v_duration (video m))));
    [| reflexivity].
  destruct (modify _ m0) as [[] m1]. cbn [fst snd].
  now destruct (showControlsTemporarily r m1).
Qed.

Lemma handleProgressChange_timer_inv (x : number) (r : State) (m : Machine) :
  timer_inv m → timer_inv (exec (handleProgressChange r x) m).
Proof.
  intros Inv. rewrite handleProgressChange_exec.
  destruct (videoRef m); [| exact Inv].
  destruct (is_finite (mul (div x (num 100)) (v_duration (video m)))) eqn:F.
  - apply showControlsTemporarily_timer_inv.
    eapply timer_inv_ext; [| | exact Inv];
      unfold video_set_currentTime; rewrite F; reflexivity.
  - eapply timer_inv_ext; [| | exact Inv]; reflexivity.
Qed.

Lemma same_timers_trans (m1 m2 m3 : Machine) :
  same_timers m1 m2 → same_timers m2 m3 → same_timers m1 m3.
Proof. unfold same_timers. intros. destruct_and!. repeat split; congruence. Qed.

Lemma react_same_timers (c : M unit) (m : Machine) :
  same_timers m (exec c m) → same_timers m (exec (react c) m).
Proof.
  intros H. rewrite react_exec. destruct (mounted m).
  - eapply same_timers_trans; [apply H |]. apply (rerender_frame (hooks m)).
  - exact H.
Qed.

Lemma step_timer_inv (ev : Event) (m : Machine) :
  timer_inv m → timer_inv (step ev m).
Proof.
  intros Inv. unfold step. destruct ev; cbn [handle].
  - apply user_timer_inv; [apply handlePlayPause_timer_inv | exact Inv].
  - apply user_timer_inv; [apply handleVolumeChange_timer_inv | exact Inv].
  - apply user_timer_inv; [apply handleMuteToggle_timer_inv | exact Inv].
  - apply user_timer_inv; [| exact Inv]. intros r m0. rewrite exec_then_skip.
    apply handleProgressChange_timer_inv.
  - apply user_timer_inv; [| exact Inv].
    intros r m0. apply showControlsTemporarily_timer_inv.
  - rewrite exec_bind. unfold eval, gets at 1. cbn [fst].
    change (exec (gets (λ m0, v_listeners (video m0))) m) with m.
    destruct (react_same_timers (run_listeners e (v_listeners (video m))) m)
      as (T & R & _); [apply run_listeners_quiet |].
    now apply (timer_inv_ext m).
  - eapply timer_inv_ext; [| | exact Inv]; reflexivity.
  - rewrite exec_bind.
    assert (S0 : same_timers m (exec take_play_promise m)).
    { unfold take_play_promise, exec. destruct (play_promises m); repeat split. }
    assert (S1 : same_timers m
              (exec (when (eval take_play_promise m)
                       (react (promise_catch p on_play_rejected ;; skip)))
                    (exec take_play_promise m))).
    { eapply same_timers_trans; [exact S0 |].
      unfold when. destruct (eval take_play_promise m); [| repeat split].
      apply react_same_timers. destruct p; repeat split. }
    destruct S1 as (T & R & _). now apply (timer_inv_ext m).
  - unfold timer_fire. rewrite !exec_bind. unfold eval, gets. cbn [fst].
    change (exec (λ m0, (timers m0, m0)) m) with m.
    change (exec (λ m0, (now m0, m0)) m) with m.
    destruct (timers m !! h) as [t |]; [| exact Inv].
    case_bool_decide; [| exact Inv].
    rewrite exec_bind.
    set (m1 := exec (modify (set_timers (delete h (timers m)))) m).
    assert (Inv1 : timer_inv m1)
      by (apply (timer_inv_delete h m); [reflexivity | reflexivity | exact Inv]).
    destruct (react_same_timers (hide_callback (cb_isPlaying t)) m1)
      as (T & R & _).
    { destruct (cb_isPlaying t); repeat split. }
    now apply (timer_inv_ext m1).
  - eapply timer_inv_ext; [| | exact Inv]; reflexivity.
  - destruct (unmount_keeps_timers m) as (T & R & _).
    now apply (timer_inv_ext m).
Qed.

Lemma run_timer_inv (evs : list Event) (m : Machine) :
  timer_inv m → timer_inv (run evs m).
Proof.
  revert m. induction evs as [| ev evs IH]; intros m H; [exact H |].
  apply IH, step_timer_inv, H.
Qed.

Lemma pointer_activity_exec (m : Machine) :
  mounted m = true → timer_inv m →
  let m' := step PointerActivity m in
  hooks m' = hooks (exec (setIsControlsVisible true) m) ∧
  timers m' = {[ next_timer m :=
                   {| due := now m + 3000;
                      cb_isPlaying := isPlaying (hooks m) |} ]} ∧
  controlsTimeoutRef m' = Some (next_timer m) ∧
  now m' = now m ∧ mounted m' = true.
Proof.
  intros Mt Inv. unfold step. cbn [handle]. rewrite user_exec, Mt.
  unfold handleVideoContainerInteraction.
  destruct (rerender_frame (hooks m)
              (exec (showControlsTemporarily (hooks m)) m))
    as (H & (T & R & _ & N) & (_ & Mt' & _)).
  cbv zeta. rewrite H, T, R, N, Mt'.
  rewrite (showControlsTemporarily_exec (hooks m) m Inv). simpl.
  repeat split. exact Mt.
Qed.

(** C5 (as the code has it): in every state the component can reach, at most
    one timeout is pending.  A call of [showControlsTemporarily] (here from
    pointer activity on the mounted component) makes the controls visible
    and leaves exactly one pending timeout, the new one, due 3000 ms after
    the call and held by [controlsTimeoutRef]; any earlier one is gone.  The
    timeout is scheduled whether or not the component is playing; when it
    fires with nothing in between, the controls are hidden if [isPlaying]
    was true at the call and stay visible if it was false. *)
Theorem show_leaves_one_timeout (autoPlay attached : bool)
    (evs : list Event) :
  let m := run evs (mount autoPlay attached) in
  mounted m = true →
  let m' := step PointerActivity m in
  (size (timers m) ≤ 1)%nat ∧
  timers m' = {[ next_timer m :=
                   {| due := now m + 3000;
                      cb_isPlaying := isPlaying (hooks m) |} ]} ∧
  size (timers m') = 1%nat ∧
  controlsTimeoutRef m' = Some (next_timer m) ∧
  isControlsVisible (hooks m') = true ∧
  isControlsVisible
    (hooks (run [Elapse 3000; TimerFire (next_timer m)] m'))
  = negb (isPlaying (hooks m)).
Proof.
  intros m Mt m'.
  assert (Inv : timer_inv m) by apply run_timer_inv, mount_timer_inv.
  destruct (pointer_activity_exec m Mt Inv) as (H & T & R & N & Mt').
  fold m' in H, T, R, N, Mt'.
  split; [now apply timer_inv_size |].
  split; [exact T |].
  split; [rewrite T; apply map_size_singleton |].
  split; [exact R |].
  split; [now rewrite H |].
  cbn [run fold_left].
  set (m1 := step (Elapse 3000) m').
  set (t := {| due := now m + 3000; cb_isPlaying := isPlaying (hooks m) |}) in *.
  assert (T1 : timers m1 !! next_timer m = Some t).
  { change (timers m1) with (timers m'). rewrite T. apply lookup_singleton_eq. }
  assert (D1 : due t ≤ now m1).
  { change (now m1) with (now m' + Z.max 0 3000). rewrite N. simpl. lia. }
  assert (M1 : mounted m1 = true) by exact Mt'.
  destruct (timer_fire_hides_by_captured m1 (next_timer m) t T1 D1 M1)
    as (V & _).
  rewrite V. change (hooks m1) with (hooks m'). rewrite H. simpl.
  now destruct (isPlaying (hooks m)).
Qed.

(** C5, witness: paused, after the pointer moved once. *)
Lemma show_leaves_one_timeout_witness :
  mounted (run paused_pointer_moved (mount false true)) = true ∧
  timers (step PointerActivity (run paused_pointer_moved (mount false true)))
    = {[ 2%positive := {| due := 3000; cb_isPlaying := false |} ]}.
Proof.
  assert (Mt : mounted (run paused_pointer_moved (mount false true)) = true)
    by (vm_compute; reflexivity).
  split; [exact Mt |].
  exact (proj1 (proj2 (show_leaves_one_timeout false true
                         paused_pointer_moved Mt))).
Defined.

(** C5, counterexample: calling [showControlsTemporarily] while paused does
    schedule a timeout. *)
Lemma show_while_paused_schedules_timeout :
  isPlaying (hooks (mount false true)) = false ∧
  timers (mount false true) = ∅ ∧
  timers (step PointerActivity (mount false true)) !! 1%positive
    = Some {| due := 3000; cb_isPlaying := false |} ∧
  timers (step PointerActivity (mount false true)) ≠ ∅.
Proof.
  assert (E : timers (step PointerActivity (mount false true)) !! 1%positive
              = Some {| due := 3000; cb_isPlaying := false |})
    by (vm_compute; reflexivity).
  repeat split; try (vm_compute; reflexivity); try exact E.
  intros N. rewrite N in E. discriminate.
Qed.

(** ** Command dispatcher *)

(** C6: a click on play/pause flips [isPlaying] at once.  From a paused,
    mounted component with its element, the re-render then calls [play()]
    and holds its promise.  If that promise is rejected, [catch] runs its
    handler and yields a fulfilled promise, so nothing is thrown further;
    the handler sets [isPlaying] to false and changes no other state
    variable, and the only other consequences are the settled promise and
    the [pause()] of the re-render. *)
Theorem togglePlay_optimistic_rollback (m : Machine) :
  mounted m = true → videoRef m = true → isPlaying (hooks m) = false →
  let m1 := step ClickPlayPause m in
  let m2 := step (SettlePlay Rejected) m1 in
  (∀ m0 : Machine,
     isPlaying (hooks (exec (handlePlayPause (hooks m0)) m0))
     = negb (isPlaying (hooks m0))) ∧
  isPlaying (hooks m1) = true ∧
  v_commands (video m1) = Play :: v_commands (video m) ∧
  play_promises m1 = S (play_promises m) ∧
  eval (promise_catch Rejected on_play_rejected) m1 = Fulfilled ∧
  isPlaying (hooks m2) = false ∧
  progress (hooks m2) = progress (hooks m1) ∧
  volume (hooks m2) = volume (hooks m1) ∧
  isMuted (hooks m2) = isMuted (hooks m1) ∧
  duration (hooks m2) = duration (hooks m1) ∧
  currentTime (hooks m2) = currentTime (hooks m1) ∧
  isControlsVisible (hooks m2) = isControlsVisible (hooks m1) ∧
  timers m2 = timers m1 ∧
  controlsTimeoutRef m2 = controlsTimeoutRef m1 ∧
  play_promises m2 = play_promises m ∧
  v_commands (video m2) = Pause :: v_commands (video m1).
Proof.
  intros Mt Vr Pl. break_machine m. subst.
  split.
  { intros m0. break_machine m0. unfold handlePlayPause, showControlsTemporarily.
    unfold_m. simpl. now destruct controlsTimeoutRef1. }
  unfold_step. simpl.
  destruct controlsTimeoutRef0; simpl;
    repeat (progress (rewrite ?eqb_reflx, ?object_is_refl; simpl));
    repeat split.
Qed.

(** C6, witness: a click on play right after mounting paused. *)
Lemma togglePlay_optimistic_rollback_witness :
  mounted (mount false true) = true ∧
  videoRef (mount false true) = true ∧
  isPlaying (hooks (mount false true)) = false ∧
  isPlaying (hooks (step ClickPlayPause (mount false true))) = true ∧
  isPlaying (hooks (run [ClickPlayPause; SettlePlay Rejected]
                        (mount false true))) = false.
Proof.
  assert (H1 : mounted (mount false true) = true) by reflexivity.
  assert (H2 : videoRef (mount false true) = true) by reflexivity.
  assert (H3 : isPlaying (hooks (mount false true)) = false) by reflexivity.
  pose proof (togglePlay_optimistic_rollback (mount false true) H1 H2 H3) as T.
  cbv zeta in T. destruct T as (_ & T1 & _ & _ & _ & T2 & _).
  repeat (split; [assumption |]). exact T2.
Defined.







(** C10: with [videoRef.current] null, [handleProgressChange] returns at
    once: the whole machine, so every state variable, the element, the
    timeouts and the ref, is what it was, and a change event of the scrub
    bar changes nothing either. *)
Theorem seekTo_without_video_is_noop (m : Machine) (r : State) (x : number) :
  videoRef m = false →
  exec (handleProgressChange r x) m = m ∧
  step (ChangeProgress x) m = m.
Proof.
  intros Vr. break_machine m. subst. split.
  - reflexivity.
  - unfold_step. simpl. destruct mounted0; simpl; [| reflexivity].
    now rewrite ?eqb_reflx, ?object_is_refl.
Qed.

(** C10, witness: the component mounted before the element was attached. *)
Lemma seekTo_without_video_is_noop_witness :
  videoRef detached = false ∧
  step (ChangeProgress (num 50)) detached = detached.
Proof.
  assert (H : videoRef detached = false) by reflexivity.
  split; [exact H |].
  exact (proj2 (seekTo_without_video_is_noop detached (hooks detached)
                  (num 50) H)).
Defined.

(** C9: [handleMuteToggle] flips [isMuted] and keeps [volume]; run again in
    the render that follows, it restores [isMuted], and [volume] is still
    the original one. *)
Theorem toggleMute_twice_restores (m : Machine) :
  let m1 := exec (handleMuteToggle (hooks m)) m in
  let m2 := exec (handleMuteToggle (hooks m1)) m1 in
  isMuted (hooks m1) = negb (isMuted (hooks m)) ∧
  volume (hooks m1) = volume (hooks m) ∧
  isMuted (hooks m2) = isMuted (hooks m) ∧
  volume (hooks m2) = volume (hooks m).
Proof.
  break_machine m. unfold handleMuteToggle, showControlsTemporarily.
  unfold_m. simpl. destruct controlsTimeoutRef0; simpl;
    rewrite negb_involutive; repeat split.
Qed.

Lemma strict_eq_zero (v : Qc) :
  strict_eq (Fin v) (num 0) = bool_decide (v = Qc_of_Z 0).
Proof. reflexivity. Qed.

(** C8: on a mounted component with its element, whose volume is the
    effective volume of the current render, a change of the volume slider to
    [v] stores [volume = v], leaves [isMuted] true exactly when [v] is 0 (so
    [v = 0] forces it, and a positive [v] clears it when it was set), and the
    re-render leaves the element's volume at the effective volume
    [isMuted ? 0 : volume] of the new state. *)
Theorem setVolume_applies_effective_volume (m : Machine) (v : Qc) :
  (0 ≤ v)%Qc → (v ≤ 1)%Qc →
  mounted m = true → videoRef m = true →
  v_volume (video m) = effectiveVolume (hooks m) →
  let m' := step (ChangeVolume (Fin v)) m in
  volume (hooks m') = Fin v ∧
  isMuted (hooks m') = bool_decide (v = Qc_of_Z 0) ∧
  isMuted (hooks m') = negb (bool_decide (0 < v)%Qc) ∧
  v_volume (video m') = effectiveVolume (hooks m') ∧
  effectiveVolume (hooks m') = (if isMuted (hooks m') then num 0 else Fin v).
Proof.
  intros Hlo Hhi Mt Vr Vol. break_machine m. subst.
  unfold effectiveVolume in *. simpl in Vol.
  assert (Hpos : bool_decide (v = Qc_of_Z 0) = negb (bool_decide (0 < v)%Qc)).
  { rewrite Qc_of_Z_0. case_bool_decide as E; case_bool_decide as P;
      try reflexivity; exfalso.
    - subst v. now apply (Qclt_not_eq 0 0)%Qc in P.
    - apply P. destruct (Qcle_lt_or_eq _ _ Hlo) as [L | L];
        [exact L | now symmetry in L]. }
  rewrite <- Hpos.
  unfold_step. rewrite strict_eq_zero. simpl.
  destruct controlsTimeoutRef0, (bool_decide (v = Qc_of_Z 0)), isMuted0; simpl;
    repeat (progress (rewrite ?eqb_reflx, ?object_is_refl; simpl));
    try (destruct (object_is volume0 (Fin v)) eqn:O;
         [apply object_is_eq in O; subst volume0 |]; simpl);
    repeat (progress (rewrite ?eqb_reflx, ?object_is_refl; simpl));
    repeat split; auto.
Qed.

(** C8, witness: dragging the slider back up after muting with it. *)
Lemma setVolume_applies_effective_volume_witness :
  isMuted (hooks muted_by_slider) = true ∧
  v_volume (video muted_by_slider) = effectiveVolume (hooks muted_by_slider) ∧
  isMuted (hooks (step (ChangeVolume (Fin (Q2Qc (3 # 10)))) muted_by_slider))
    = bool_decide (Q2Qc (3 # 10) = Qc_of_Z 0).
Proof.
  assert (H1 : (0 ≤ Q2Qc (3 # 10))%Qc) by (vm_compute; discriminate).
  assert (H2 : (Q2Qc (3 # 10) ≤ 1)%Qc) by (vm_compute; discriminate).
  assert (H3 : mounted muted_by_slider = true) by reflexivity.
  assert (H4 : videoRef muted_by_slider = true) by reflexivity.
  assert (H5 : v_volume (video muted_by_slider)
               = effectiveVolume (hooks muted_by_slider))
    by (vm_compute; reflexivity).
  split; [vm_compute; reflexivity |]. split; [exact H5 |].
  exact (proj1 (proj2 (setVolume_applies_effective_volume muted_by_slider
                         (Q2Qc (3 # 10)) H1 H2 H3 H4 H5))).
Defined.

(** ** The element's volume follows the state *)

Lemma mount_volume_inv (autoPlay attached : bool) :
  volume_inv (mount autoPlay attached).
Proof. destruct autoPlay, attached; intros Vr; vm_compute in *; congruence. Qed.

Ltac volume_cases :=
  repeat match goal with
  | H : negb _ = true |- _ => apply negb_true_iff in H
  | H : negb _ = false |- _ => apply negb_false_iff in H
  | H : _ && _ = true |- _ => apply andb_true_iff in H; destruct H
  | H : object_is _ _ = true |- _ => apply object_is_eq in H
  | H : eqb _ _ = true |- _ => apply eqb_prop in H
  end; simplify_eq/=; auto; try done.

Lemma rerender_same_volume (r : State) (m : Machine) :
  volume r = volume (hooks m) → isMuted r = isMuted (hooks m) →
  v_volume (video (exec (rerender r) m)) = v_volume (video m).
Proof.
  intros V Mu. break_machine m. subst. unfold_step. simpl.
  rewrite object_is_refl, eqb_reflx. simpl.
  repeat (case_match; simplify_eq/=); reflexivity.
Qed.

Lemma react_quiet_volume_inv (c : M unit) (m : Machine) :
  quiet m (exec c m) → volume_inv m → volume_inv (exec (react c) m).
Proof.
  unfold volume_inv, effectiveVolume.
  intros (_ & (_ & _ & _ & Vr) & V & Mu & VV) Inv.
  rewrite react_exec. destruct (mounted m).
  - pose proof (rerender_frame (hooks m) (exec c m)) as F. cbv zeta in F.
    destruct F as (H & _ & (_ & _ & _ & Vr')).
    rewrite H, Vr', Vr, V, Mu. intros Hv.
    rewrite rerender_same_volume by congruence. rewrite VV. now apply Inv.
  - destruct (exec c m) as [s ? ? ? ? ? ? ? ? ?]. simpl in *. subst.
    intros Hv. rewrite VV. now apply Inv.
Qed.

Lemma notify_volume_inv (e : EventType) (m : Machine) :
  volume_inv m → volume_inv (step (Notify e) m).
Proof.
  intros Inv. unfold step. cbn [handle]. rewrite exec_bind.
  unfold eval, gets at 1. cbn [fst].
  change (exec (gets (λ m0, v_listeners (video m0))) m) with m.
  apply react_quiet_volume_inv; [apply run_listeners_quiet | exact Inv].
Qed.

(** In every reachable state the element's volume is the effective volume
    of the current render. *)
Lemma step_volume_inv (ev : Event) (m : Machine) :
  volume_inv m → volume_inv (step ev m).
Proof.
  destruct ev; try apply notify_volume_inv;
    unfold volume_inv, effectiveVolume; break_machine m; intros Inv.
  - brute. all: volume_cases.
  - brute. all: volume_cases.
  - brute. all: volume_cases.
  - brute. all: volume_cases.
  - brute. all: volume_cases.
  - brute. all: volume_cases.
  - brute. all: volume_cases.
  - brute. all: volume_cases.
  - brute. all: volume_cases.
  - unfold step, handle, unmount, cleanup_effect_listeners,
      removeEventListener. brute. all: volume_cases.
Qed.

Lemma run_volume_inv (evs : list Event) (m : Machine) :
  volume_inv m → volume_inv (run evs m).
Proof.
  revert m. induction evs as [| ev evs IH]; intros m H; [exact H |].
  apply IH, step_volume_inv, H.
Qed.

(** ** Time display *)

Lemma Qfloor_unique (x : Q) (z : Z) :
  (inject_Z z <= x)%Q → (x < inject_Z (z + 1))%Q → Qfloor x = z.
Proof.
  intros Hlo Hhi.
  pose proof (Qfloor_le x) as Fl. pose proof (Qlt_floor x) as Fh.
  assert (H1 : (inject_Z z < inject_Z (Qfloor x + 1))%Q)
    by (eapply Qle_lt_trans; eassumption).
  assert (H2 : (inject_Z (Qfloor x) < inject_Z (z + 1))%Q)
    by (eapply Qle_lt_trans; eassumption).
  rewrite <- Zlt_Qlt in H1, H2. lia.
Qed.

Lemma this_div (a b : Qc) : (this (a / b)%Qc == this a / this b)%Q.
Proof.
  unfold Qcdiv, Qcmult, Qcinv, Q2Qc. cbn [this].
  now rewrite !Qred_correct.
Qed.

Lemma this_sub_mul (a b c : Qc) :
  (this (a - b * c)%Qc == this a - this b * this c)%Q.
Proof.
  unfold Qcminus, Qcplus, Qcopp, Qcmult, Q2Qc. cbn [this].
  now rewrite !Qred_correct.
Qed.

Lemma is_zero_60 : is_zero (Qc_of_Z 60) = false.
Proof. apply is_zero_false. intros E. apply Qc_of_Z_inj in E. discriminate. Qed.

Lemma Qc_of_Z_eq (q : Qc) (z : Z) : (this q == inject_Z z)%Q → q = Qc_of_Z z.
Proof. intros H. now apply Qc_is_canon. Qed.

(** Whole minutes: [Math.floor(x / 60)] is the integer quotient of the
    whole seconds. *)
Lemma minutes_of (q : Qc) :
  math_floor (div (Fin q) (num 60)) = num (Qfloor q / 60).
Proof.
  unfold div, num. rewrite is_zero_60. cbn [math_floor]. do 2 f_equal.
  rewrite (Qfloor_comp _ _ (this_div q (Qc_of_Z 60))).
  cbn [this Qc_of_Z].
  pose proof (Qfloor_le q) as Fl. pose proof (Qlt_floor q) as Fh.
  set (n := Qfloor q) in *.
  pose proof (Z.div_mod n 60 ltac:(lia)) as E.
  pose proof (Z.mod_pos_bound n 60 ltac:(lia)) as B.
  set (a := (n / 60)%Z) in *. set (b := (n mod 60)%Z) in *.
  assert (En : (inject_Z n == 60 * inject_Z a + inject_Z b)%Q).
  { rewrite E, inject_Z_plus, inject_Z_mult. reflexivity. }
  assert (B0 : (inject_Z 0 <= inject_Z b)%Q) by (rewrite <- Zle_Qle; lia).
  assert (B1 : (inject_Z b <= inject_Z 59)%Q) by (rewrite <- Zle_Qle; lia).
  change (inject_Z 0) with 0%Q in B0. change (inject_Z 59) with (59 # 1) in B1.
  assert (En1 : (inject_Z (n + 1) == inject_Z n + 1)%Q)
    by (rewrite inject_Z_plus; reflexivity).
  assert (D : (this q / inject_Z 60 == this q * (1 # 60))%Q) by field.
  apply Qfloor_unique; rewrite D.
  - lra.
  - rewrite inject_Z_plus. change (inject_Z 1) with 1%Q. lra.
Qed.

(** Seconds within the minute, for a non-negative time. *)
Lemma seconds_of (q : Qc) :
  (0 ≤ q)%Qc →
  math_floor (remainder (Fin q) (num 60)) = num (Qfloor q mod 60).
Proof.
  intros Hq. unfold remainder, num. rewrite is_zero_60. cbn [math_floor].
  do 2 f_equal.
  assert (Hq' : (0 <= this q)%Q) by exact Hq.
  assert (T : Qtrunc (q / Qc_of_Z 60)%Qc = (Qfloor q / 60)%Z).
  { unfold Qtrunc.
    assert (P : Qle_bool 0 (q / Qc_of_Z 60)%Qc = true).
    { apply Qle_bool_iff. rewrite this_div. cbn [this Qc_of_Z].
      assert (D : (this q / inject_Z 60 == this q * (1 # 60))%Q) by field.
      rewrite D. lra. }
    rewrite P.
    pose proof (minutes_of q) as Mi. unfold div, num in Mi.
    rewrite is_zero_60 in Mi. cbn [math_floor] in Mi.
    injection Mi as Mi. exact Mi. }
  rewrite T.
  rewrite (Qfloor_comp _ _ (this_sub_mul q (Qc_of_Z 60) (Qc_of_Z (Qfloor q / 60)))).
  cbn [this Qc_of_Z].
  pose proof (Qfloor_le q) as Fl. pose proof (Qlt_floor q) as Fh.
  set (n := Qfloor q) in *.
  pose proof (Z.div_mod n 60 ltac:(lia)) as E.
  set (a := (n / 60)%Z) in *. set (b := (n mod 60)%Z) in *.
  assert (En : (inject_Z n == 60 * inject_Z a + inject_Z b)%Q).
  { rewrite E, inject_Z_plus, inject_Z_mult. reflexivity. }
  assert (En1 : (inject_Z (n + 1) == inject_Z n + 1)%Q)
    by (rewrite inject_Z_plus; reflexivity).
  apply Qfloor_unique.
  - change (inject_Z 60) with (60 # 1). lra.
  - rewrite inject_Z_plus. change (inject_Z 1) with 1%Q.
    change (inject_Z 60) with (60 # 1). lra.
Qed.

Lemma to_string_num (z : Z) :
  Z.abs z < 2 ^ 53 → to_string (num z) = Some (decimal z).
Proof.
  intros H. unfold to_string, num, decimal. cbn [this Qc_of_Z].
  rewrite Qfloor_Z.
  rewrite (bool_decide_eq_true_2 _ (eq_refl (Qc_of_Z z))).
  now rewrite (bool_decide_eq_true_2 _ H).
Qed.

Lemma less_than_num (a b : Z) : less_than (num a) (num b) = (a <? b).
Proof.
  unfold less_than, num.
  destruct (Z.ltb_spec a b) as [L | L].
  - apply bool_decide_eq_true. unfold Qclt. cbn [this Qc_of_Z].
    now rewrite <- Zlt_Qlt.
  - apply bool_decide_eq_false. unfold Qclt. cbn [this Qc_of_Z].
    rewrite <- Zlt_Qlt. lia.
Qed.

Lemma Qfloor_nonneg (q : Qc) : (0 ≤ q)%Qc → 0 ≤ Qfloor q.
Proof.
  intros H. change 0 with (Qfloor 0). now apply Qfloor_resp_le.
Qed.

Lemma seconds_text_length (s : Z) :
  0 ≤ s < 60 → String.length (seconds_text s) = 2%nat.
Proof.
  intros H.
  assert (A : forallb (λ k, Nat.eqb (String.length (seconds_text (Z.of_nat k))) 2)
                (seq 0 60) = true) by (vm_compute; reflexivity).
  rewrite forallb_forall in A.
  specialize (A (Z.to_nat s)). rewrite Z2Nat.id in A by lia.
  apply Nat.eqb_eq, A, in_seq. lia.
Qed.

Lemma Qfloor_below (q : Qc) (z : Z) : (q < Qc_of_Z z)%Qc → Qfloor q < z.
Proof.
  intros H. pose proof (Qfloor_le q) as Fl.
  assert (L : (inject_Z (Qfloor q) < inject_Z z)%Q)
    by (eapply Qle_lt_trans; [exact Fl | exact H]).
  now rewrite <- Zlt_Qlt in L.
Qed.

Lemma formatTime_nonneg (q : Qc) :
  (0 ≤ q)%Qc → (q < Qc_of_Z (2 ^ 53))%Qc →
  formatTime (Fin q)
  = Some (String.append (decimal (Qfloor q / 60))
            (String.append ":" (seconds_text (Qfloor q mod 60)))).
Proof.
  intros Hq Hm.
  pose proof (Qfloor_nonneg q Hq) as Hn.
  pose proof (Qfloor_below q _ Hm) as Hb.
  pose proof (Z.mod_pos_bound (Qfloor q) 60 ltac:(lia)) as Hs.
  assert (Hm0 : 0 ≤ Qfloor q / 60) by (apply Z.div_pos; lia).
  assert (Hm1 : Qfloor q / 60 < 2 ^ 53)
    by (apply Z.div_lt_upper_bound; lia).
  unfold formatTime. rewrite minutes_of, (seconds_of q Hq).
  rewrite !to_string_num by lia. now rewrite less_than_num.
Qed.

(** X1: for a non-negative time below [2^53] seconds, the display is the
    whole minutes in decimal (with no hour part, however many they are), a
    colon, and the seconds within the minute on exactly two characters. *)
Theorem formatTime_minutes_seconds (q : Qc) :
  (0 ≤ q)%Qc → (q < Qc_of_Z (2 ^ 53))%Qc →
  formatTime (Fin q)
  = Some (String.append (decimal (Qfloor q / 60))
            (String.append ":" (seconds_text (Qfloor q mod 60)))) ∧
  String.length (seconds_text (Qfloor q mod 60)) = 2%nat.
Proof.
  intros Hq Hm. split; [now apply formatTime_nonneg |].
  apply seconds_text_length. apply Z.mod_pos_bound. lia.
Qed.

Lemma formatTime_minutes_seconds_witness :
  (0 ≤ Q2Qc (251 # 2))%Qc ∧
  formatTime (Fin (Q2Qc (251 # 2))) = Some "2:05"%string.
Proof.
  assert (H1 : (0 ≤ Q2Qc (251 # 2))%Qc) by (vm_compute; discriminate).
  assert (H2 : (Q2Qc (251 # 2) < Qc_of_Z (2 ^ 53))%Qc) by reflexivity.
  split; [exact H1 |].
  exact (proj1 (formatTime_minutes_seconds (Q2Qc (251 # 2)) H1 H2)).
Defined.

(** X2: fractions of a second do not show: a non-negative time is displayed as
    its whole seconds are. *)
Theorem formatTime_truncates (q : Qc) :
  (0 ≤ q)%Qc → formatTime (Fin q) = formatTime (num (Qfloor q)).
Proof.
  intros Hq. pose proof (Qfloor_nonneg q Hq) as Hn.
  assert (Hq' : (0 ≤ Qc_of_Z (Qfloor q))%Qc).
  { unfold Qcle. cbn [this Qc_of_Z]. change (this 0%Qc) with (inject_Z 0).
    now rewrite <- Zle_Qle. }
  unfold formatTime.
  change (num (Qfloor q)) with (Fin (Qc_of_Z (Qfloor q))).
  rewrite (minutes_of q), (minutes_of (Qc_of_Z (Qfloor q))).
  rewrite (seconds_of q Hq), (seconds_of _ Hq').
  cbn [this Qc_of_Z]. now rewrite Qfloor_Z.
Qed.

Lemma formatTime_truncates_witness :
  (0 ≤ Q2Qc (119 # 2))%Qc ∧
  formatTime (Fin (Q2Qc (119 # 2))) = formatTime (num 59).
Proof.
  assert (H1 : (0 ≤ Q2Qc (119 # 2))%Qc) by (vm_compute; discriminate).
  split; [exact H1 |].
  exact (formatTime_truncates (Q2Qc (119 # 2)) H1).
Defined.

Lemma split_colon_digits (d : Decimal.uint) (t : String.string) :
  split_colon (String.append (DecimalString.NilEmpty.string_of_uint d)
                 (String ":" t))
  = Some (DecimalString.NilEmpty.string_of_uint d, t).
Proof.
  induction d as [| d IH | d IH | d IH | d IH | d IH | d IH | d IH | d IH
                  | d IH | d IH]; simpl; [reflexivity | ..]; now rewrite IH.
Qed.

Lemma split_colon_decimal (z : Z) (t : String.string) :
  0 ≤ z →
  split_colon (String.append (decimal z) (String ":" t)) = Some (decimal z, t).
Proof.
  intros Hz. unfold decimal. destruct z as [| p | p]; [reflexivity | | lia].
  cbn [Z.to_int DecimalString.NilZero.string_of_int].
  unfold DecimalString.NilZero.string_of_uint.
  pose proof (DecimalPos.Unsigned.to_uint_nonnil p) as N.
  destruct (Pos.to_uint p) eqn:E; [congruence | ..];
    rewrite <- E at 1; rewrite <- E; cycle 0.
  all: rewrite split_colon_digits; reflexivity.
Qed.

Lemma decimal_inj (a b : Z) : decimal a = decimal b → a = b.
Proof.
  unfold decimal. intros H.
  assert (NN : ∀ z, Z.to_int z ≠ Decimal.Pos Decimal.Nil
                    ∧ Z.to_int z ≠ Decimal.Neg Decimal.Nil).
  { intros [| p | p]; cbn [Z.to_int]; split; try discriminate;
      intros [= E]; now apply (DecimalPos.Unsigned.to_uint_nonnil p). }
  apply (f_equal DecimalString.NilZero.int_of_string) in H.
  rewrite !DecimalString.NilZero.isi in H by apply NN.
  injection H as H. apply (f_equal Z.of_int) in H.
  now rewrite !DecimalZ.of_to in H.
Qed.

Lemma seconds_text_inj (a b : Z) :
  0 ≤ a < 60 → 0 ≤ b < 60 → seconds_text a = seconds_text b → a = b.
Proof.
  intros Ha Hb E.
  assert (A : forallb (λ i, forallb (λ j,
                 Nat.eqb i j
                 || negb (String.eqb (seconds_text (Z.of_nat i))
                                     (seconds_text (Z.of_nat j))))
                 (seq 0 60)) (seq 0 60) = true) by (vm_compute; reflexivity).
  rewrite forallb_forall in A.
  specialize (A (Z.to_nat a) ltac:(apply in_seq; lia)).
  rewrite forallb_forall in A.
  specialize (A (Z.to_nat b) ltac:(apply in_seq; lia)).
  rewrite !Z2Nat.id in A by lia. rewrite E, String.eqb_refl in A.
  rewrite orb_false_r in A. apply Nat.eqb_eq in A. lia.
Qed.

(** X3: two non-negative whole numbers of seconds below [2^53] with the same
    display are the same number: the display loses nothing but the
    fraction. *)
Theorem formatTime_injective (a b : Z) :
  0 ≤ a → 0 ≤ b → a < 2 ^ 53 → b < 2 ^ 53 →
  formatTime (num a) = formatTime (num b) → a = b.
Proof.
  intros Ha Hb Ma Mb E.
  assert (Q : ∀ z, 0 ≤ z → (0 ≤ Qc_of_Z z)%Qc).
  { intros z Hz. unfold Qcle. cbn [this Qc_of_Z].
    change (this 0%Qc) with (inject_Z 0). now rewrite <- Zle_Qle. }
  assert (F : ∀ z, Qfloor (Qc_of_Z z) = z) by (intros z; apply Qfloor_Z).
  assert (B : ∀ z, z < 2 ^ 53 → (Qc_of_Z z < Qc_of_Z (2 ^ 53))%Qc).
  { intros z Hz. unfold Qclt. cbn [this Qc_of_Z]. now rewrite <- Zlt_Qlt. }
  pose proof (formatTime_nonneg (Qc_of_Z a) (Q a Ha) (B a Ma)) as Ea.
  pose proof (formatTime_nonneg (Qc_of_Z b) (Q b Hb) (B b Mb)) as Eb.
  rewrite F in Ea, Eb. unfold num in E. rewrite Ea, Eb in E.
  injection E as E.
  apply (f_equal split_colon) in E.
  change (String.append ":" ?t) with (String ":" t) in E.
  rewrite !split_colon_decimal in E by (apply Z.div_pos; lia).
  injection E as Em Es.
  apply decimal_inj in Em.
  apply seconds_text_inj in Es; try (apply Z.mod_pos_bound; lia).
  rewrite (Z.div_mod a 60), (Z.div_mod b 60) by lia. congruence.
Qed.

Lemma formatTime_injective_witness :
  formatTime (num 125) = formatTime (num (60 * 2 + 5)) ∧ 125 = 60 * 2 + 5.
Proof.
  assert (H : formatTime (num 125) = formatTime (num (60 * 2 + 5)))
    by reflexivity.
  split; [exact H |].
  exact (formatTime_injective 125 (60 * 2 + 5) ltac:(lia) ltac:(lia)
           ltac:(reflexivity) ltac:(reflexivity) H).
Defined.

(** ** Playback commands follow the state *)

Lemma user_react (handler : State → M unit) (m : Machine) :
  exec (user handler) m =
    if mounted m then exec (react (handler (hooks m))) m else m.
Proof.
  rewrite user_exec, react_exec. now destruct (mounted m).
Qed.

Lemma same_playback_refl (m : Machine) : same_playback m m.
Proof. split; reflexivity. Qed.

Lemma same_playback_trans (m1 m2 m3 : Machine) :
  same_playback m1 m2 → same_playback m2 m3 → same_playback m1 m3.
Proof. unfold same_playback. intros [] []. split; congruence. Qed.

Lemma rerender_playback (r : State) (m : Machine) :
  videoRef m = true →
  last_playback (v_commands (video m)) = Some (isPlaying r) →
  last_playback (v_commands (video (exec (rerender r) m)))
  = Some (isPlaying (hooks m)).
Proof.
  intros Vr L. break_machine m. subst. unfold_step. simpl.
  destruct (eqb (isPlaying r) isPlaying0) eqn:E; simpl.
  - apply eqb_prop in E. subst.
    repeat (case_match; simplify_eq/=); assumption.
  - repeat (case_match; simplify_eq/=); reflexivity.
Qed.

Lemma react_playback_inv (c : M unit) (m : Machine) :
  same_playback m (exec c m) → playback_inv m →
  playback_inv (exec (react c) m).
Proof.
  unfold playback_inv. intros [L Vr] Inv. rewrite react_exec.
  destruct (mounted m).
  - pose proof (rerender_frame (hooks m) (exec c m)) as F. cbv zeta in F.
    destruct F as (H & _ & (_ & _ & _ & Vr')).
    rewrite H, Vr', Vr. intros V.
    apply rerender_playback; [congruence |].
    rewrite L. now apply Inv.
  - destruct (exec c m) as [s ? ? ? ? ? ? ? ? ?]. simpl in *. subst.
    intros V. rewrite L. now apply Inv.
Qed.

Lemma listener_body_same_playback (h : Listener) (m : Machine) :
  same_playback m (exec (listener_body h) m).
Proof. break_machine m. destruct h; split; reflexivity. Qed.

Lemma run_listeners_same_playback (e : EventType)
    (l : list (EventType * Listener)) (m : Machine) :
  same_playback m (exec (run_listeners e l) m).
Proof.
  revert m. induction l as [| [e' h] l IH]; intros m.
  - apply same_playback_refl.
  - cbn [run_listeners]. rewrite exec_bind.
    eapply same_playback_trans; [| apply IH].
    unfold when. destruct (bool_decide (e' = e));
      [apply listener_body_same_playback | apply same_playback_refl].
Qed.

Lemma handlePlayPause_same_playback (r : State) (m : Machine) :
  same_playback m (exec (handlePlayPause r) m).
Proof. unfold same_playback. break_machine m. split; brute. Qed.

Lemma handleMuteToggle_same_playback (r : State) (m : Machine) :
  same_playback m (exec (handleMuteToggle r) m).
Proof. unfold same_playback. break_machine m. split; brute. Qed.

Lemma handleVideoContainerInteraction_same_playback (r : State)
    (m : Machine) :
  same_playback m (exec (handleVideoContainerInteraction r) m).
Proof. unfold same_playback. break_machine m. split; brute. Qed.

Lemma handleVolumeChange_same_playback (x : number) (r : State)
    (m : Machine) :
  same_playback m (exec (handleVolumeChange r x) m).
Proof. unfold same_playback. break_machine m. split; brute. Qed.

Lemma handleProgressChange_same_playback (x : number) (r : State)
    (m : Machine) :
  same_playback m (exec (handleProgressChange r x) m).
Proof. unfold same_playback. break_machine m. split; brute. Qed.

Lemma user_playback_inv (handler : State → M unit) (m : Machine) :
  (∀ r m0, same_playback m0 (exec (handler r) m0)) →
  playback_inv m → playback_inv (exec (user handler) m).
Proof.
  intros H Inv. rewrite user_react. destruct (mounted m); [| exact Inv].
  now apply react_playback_inv.
Qed.

Lemma step_playback_inv (ev : Event) (m : Machine) :
  playback_inv m → playback_inv (step ev m).
Proof.
  intros Inv. unfold step. destruct ev; cbn [handle].
  - apply user_playback_inv; [apply handlePlayPause_same_playback | exact Inv].
  - apply user_playback_inv; [apply handleVolumeChange_same_playback | exact Inv].
  - apply user_playback_inv; [apply handleMuteToggle_same_playback | exact Inv].
  - apply user_playback_inv; [| exact Inv]. intros r m0.
    rewrite exec_then_skip. apply handleProgressChange_same_playback.
  - apply user_playback_inv;
      [apply handleVideoContainerInteraction_same_playback | exact Inv].
  - rewrite exec_bind. unfold eval, gets at 1. cbn [fst].
    change (exec (gets (λ m0, v_listeners (video m0))) m) with m.
    apply react_playback_inv; [apply run_listeners_same_playback | exact Inv].
  - exact Inv.
  - rewrite exec_bind. unfold when.
    assert (Inv0 : playback_inv (exec take_play_promise m)).
    { unfold take_play_promise, exec. now destruct (play_promises m). }
    destruct (eval take_play_promise m); [| exact Inv0].
    apply react_playback_inv; [| exact Inv0].
    destruct p; split; reflexivity.
  - unfold timer_fire. rewrite !exec_bind. unfold eval, gets. cbn [fst].
    change (exec (λ m0, (timers m0, m0)) m) with m.
    change (exec (λ m0, (now m0, m0)) m) with m.
    destruct (timers m !! h) as [t |]; [| exact Inv].
    case_bool_decide; [| exact Inv].
    rewrite exec_bind. apply react_playback_inv; [| exact Inv].
    destruct (cb_isPlaying t); split; reflexivity.
  - exact Inv.
  - unfold playback_inv in *. break_machine m.
    unfold unmount, cleanup_effect_listeners, removeEventListener. brute.
Qed.

Lemma step_videoRef (ev : Event) (m : Machine) :
  videoRef (step ev m) = videoRef m.
Proof.
  assert (ev = Unmount ∨ ev ≠ Unmount) as [-> | Hev]
    by (destruct ev; (now left) || (now right)).
  - break_machine m.
    unfold step, handle, unmount, cleanup_effect_listeners,
      removeEventListener. brute.
  - now destruct (step_same_subscription ev m Hev) as (_ & _ & _ & V).
Qed.

Lemma run_videoRef (evs : list Event) (m : Machine) :
  videoRef (run evs m) = videoRef m.
Proof.
  revert m. induction evs as [| ev evs IH]; intros m; [reflexivity |].
  cbn [run fold_left]. fold (run evs (step ev m)).
  now rewrite IH, step_videoRef.
Qed.

Lemma run_playback_inv (evs : list Event) (m : Machine) :
  playback_inv m → playback_inv (run evs m).
Proof.
  revert m. induction evs as [| ev evs IH]; intros m H; [exact H |].
  apply IH, step_playback_inv, H.
Qed.

(** X4: however the component got there from a mount with its element, the
    latest [play()] or [pause()] it sent to the element is [play()] exactly
    when [isPlaying] is true. *)
Theorem playback_command_follows_isPlaying (autoPlay : bool)
    (evs : list Event) :
  let m := run evs (mount autoPlay true) in
  last_playback (v_commands (video m)) = Some (isPlaying (hooks m)).
Proof.
  intros m.
  assert (Inv : playback_inv m).
  { apply run_playback_inv. intros _. now destruct autoPlay. }
  apply Inv. unfold m. rewrite run_videoRef. now destruct autoPlay.
Qed.

(** X5: however the component got there from a mount with its element, the
    element's volume is [isMuted ? 0 : volume] of the current state. *)
Theorem element_volume_follows_state (autoPlay : bool) (evs : list Event) :
  let m := run evs (mount autoPlay true) in
  v_volume (video m) = effectiveVolume (hooks m).
Proof.
  intros m.
  assert (Inv : volume_inv m) by apply run_volume_inv, mount_volume_inv.
  apply Inv. unfold m. rewrite run_videoRef. now destruct autoPlay.
Qed.

(** ** When the controls show and hide *)

Lemma run_listeners_visible (e : EventType) (l : list (EventType * Listener))
    (m : Machine) :
  isControlsVisible (hooks (exec (run_listeners e l) m))
  = isControlsVisible (hooks m).
Proof.
  revert m. induction l as [| [e' h] l IH]; intros m; [reflexivity |].
  cbn [run_listeners]. rewrite exec_bind, IH.
  unfold when. destruct (bool_decide (e' = e)); [| reflexivity].
  break_machine m. now destruct h.
Qed.

Lemma react_visible (c : M unit) (m : Machine) :
  isControlsVisible (hooks m) = true →
  isControlsVisible (hooks (exec c m)) = true →
  isControlsVisible (hooks (exec (react c) m)) = true.
Proof.
  intros V Vc. rewrite react_exec. destruct (mounted m).
  - pose proof (rerender_frame (hooks m) (exec c m)) as F. cbv zeta in F.
    destruct F as (H & _). now rewrite H.
  - now destruct (exec c m).
Qed.

(** X6: nothing but a firing timeout hides the controls: after any other event
    visible controls are still visible. *)
Theorem only_timeout_hides_controls (ev : Event) (m : Machine) :
  (∀ h, ev ≠ TimerFire h) →
  isControlsVisible (hooks m) = true →
  isControlsVisible (hooks (step ev m)) = true.
Proof.
  intros Hev V. unfold step. destruct ev; cbn [handle];
    try (rewrite user_react; destruct (mounted m); [| exact V];
         apply react_visible; [exact V |]).
  - break_machine m. brute.
  - break_machine m. brute.
  - break_machine m. brute.
  - break_machine m. brute.
  - break_machine m. brute.
  - rewrite exec_bind. unfold eval, gets at 1. cbn [fst].
    change (exec (gets (λ m0, v_listeners (video m0))) m) with m.
    apply react_visible; [exact V |]. now rewrite run_listeners_visible.
  - exact V.
  - rewrite exec_bind. unfold when.
    assert (V0 : isControlsVisible (hooks (exec take_play_promise m)) = true).
    { unfold take_play_promise, exec. now destruct (play_promises m). }
    destruct (eval take_play_promise m); [| exact V0].
    apply react_visible; [exact V0 |]. now destruct p.
  - now destruct (Hev h).
  - exact V.
  - break_machine m.
    unfold unmount, cleanup_effect_listeners, removeEventListener. brute.
Qed.

Lemma only_timeout_hides_controls_witness :
  isControlsVisible (hooks at_end_of_clip) = true ∧
  isControlsVisible (hooks (step (Notify ended) at_end_of_clip)) = true.
Proof.
  assert (V : isControlsVisible (hooks at_end_of_clip) = true) by reflexivity.
  split; [exact V |].
  exact (only_timeout_hides_controls (Notify ended) at_end_of_clip
           ltac:(intros h; discriminate) V).
Defined.

(** [showControlsTemporarily] followed by the re-render, on a machine with
    the timers of one that has at most the ref's timeout pending. *)
Lemma show_then_rerender (r r' : State) (m m0 : Machine) :
  timer_inv m → same_timers m m0 →
  let m' := exec (rerender r') (exec (showControlsTemporarily r) m0) in
  hooks m' = hooks (exec (setIsControlsVisible true) m0) ∧
  timers m' = {[ next_timer m :=
                   {| due := now m + 3000; cb_isPlaying := isPlaying r |} ]} ∧
  controlsTimeoutRef m' = Some (next_timer m) ∧
  now m' = now m ∧ mounted m' = mounted m0.
Proof.
  intros Inv (T & R & N & W).
  assert (Inv0 : timer_inv m0) by now apply (timer_inv_ext m).
  pose proof (rerender_frame r' (exec (showControlsTemporarily r) m0)) as F.
  cbv zeta in F. destruct F as (H & (T' & R' & _ & W') & (_ & Mt' & _)).
  cbv zeta. rewrite H, T', R', W', Mt'.
  rewrite (showControlsTemporarily_exec r m0 Inv0). simpl.
  rewrite N, W. repeat split.
Qed.

Lemma dispatcher_step (ev : Event) (m : Machine) :
  dispatcher_event ev = true → runs_to_end ev m = true →
  mounted m = true → videoRef m = true →
  ∃ m0, same_timers m m0 ∧ mounted m0 = true ∧
        isPlaying (hooks m0)
          = (match ev with
             | ClickPlayPause => negb (isPlaying (hooks m))
             | _ => isPlaying (hooks m)
             end) ∧
        step ev m = exec (rerender (hooks m))
                      (exec (showControlsTemporarily (hooks m)) m0).
Proof.
  intros D F Mt Vr. unfold step.
  destruct ev; try discriminate; cbn [handle]; rewrite user_exec, Mt.
  - exists (exec (setIsPlaying (negb (isPlaying (hooks m)))) m).
    repeat split; try assumption.
  - exists (exec (setVolume value ;;
                  if strict_eq value (num 0) then setIsMuted true
                  else if isMuted (hooks m) then setIsMuted false else skip) m).
    repeat split; try assumption;
      try (destruct (strict_eq value (num 0)), (isMuted (hooks m));
           (reflexivity || assumption)).
    unfold handleVolumeChange. rewrite !exec_bind. reflexivity.
  - exists (exec (setIsMuted (negb (isMuted (hooks m)))) m).
    repeat split; try assumption.
  - exists (exec (setProgress value ;;
                  video_set_currentTime
                    (mul (div value (num 100)) (v_duration (video m)))) m).
    cbn [runs_to_end] in F.
    repeat split; try assumption;
      try (unfold video_set_currentTime; rewrite F; (reflexivity || assumption)).
    now rewrite exec_then_skip, handleProgressChange_exec, Vr, F.
  - exists m. repeat split; try assumption.
Qed.

(** X7: on the mounted component with its element, every call of the command
    dispatcher (play/pause, volume, mute, scrub, pointer activity) whose
    handler runs to its end, which the scrub handler does when its seek
    target is a finite number, leaves the controls visible and exactly one
    timeout pending, due 3000 ms later and held by [controlsTimeoutRef]; its
    callback carries the [isPlaying] of the render the handler belongs to,
    for a click on play/pause the value before the click. *)
Theorem dispatcher_call_shows_controls (autoPlay : bool) (evs : list Event)
    (ev : Event) :
  let m := run evs (mount autoPlay true) in
  dispatcher_event ev = true → runs_to_end ev m = true → mounted m = true →
  let m' := step ev m in
  isControlsVisible (hooks m') = true ∧
  timers m' = {[ next_timer m :=
                   {| due := now m + 3000;
                      cb_isPlaying := isPlaying (hooks m) |} ]} ∧
  controlsTimeoutRef m' = Some (next_timer m).
Proof.
  intros m D F Mt m'.
  assert (Inv : timer_inv m) by apply run_timer_inv, mount_timer_inv.
  assert (Vr : videoRef m = true)
    by (unfold m; rewrite run_videoRef; now destruct autoPlay).
  destruct (dispatcher_step ev m D F Mt Vr) as (m0 & S0 & _ & _ & E).
  unfold m'. rewrite E.
  pose proof (show_then_rerender (hooks m) (hooks m) m m0 Inv S0) as P.
  cbv zeta in P. destruct P as (H & T & R & _).
  rewrite H. repeat split; assumption.
Qed.

Lemma dispatcher_call_shows_controls_witness :
  mounted (run [ClickPlayPause] (mount false true)) = true ∧
  timers (step ClickMute (run [ClickPlayPause] (mount false true)))
  = {[ 2%positive := {| due := 3000; cb_isPlaying := true |} ]}.
Proof.
  assert (Mt : mounted (run [ClickPlayPause] (mount false true)) = true)
    by reflexivity.
  split; [exact Mt |].
  exact (proj1 (proj2 (dispatcher_call_shows_controls false [ClickPlayPause]
                         ClickMute eq_refl eq_refl Mt))).
Defined.

(** X8: after a click on play from the paused, mounted component, the timeout of
    that click carries [isPlaying = false]: when it fires three seconds
    later the component is playing, the controls stay visible, and no
    timeout is left to hide them. *)
Theorem play_click_timeout_keeps_controls (autoPlay : bool)
    (evs : list Event) :
  let m := run evs (mount autoPlay true) in
  mounted m = true → isPlaying (hooks m) = false →
  let m' := run [ClickPlayPause; Elapse 3000; TimerFire (next_timer m)] m in
  isPlaying (hooks m') = true ∧
  isControlsVisible (hooks m') = true ∧
  timers m' = ∅.
Proof.
  intros m Mt Pl m'.
  assert (Inv : timer_inv m) by apply run_timer_inv, mount_timer_inv.
  assert (Vr : videoRef m = true)
    by (unfold m; rewrite run_videoRef; now destruct autoPlay).
  destruct (dispatcher_step ClickPlayPause m eq_refl eq_refl Mt Vr)
    as (m0 & S0 & Mt0 & P0 & E).
  pose proof (show_then_rerender (hooks m) (hooks m) m m0 Inv S0) as P.
  cbv zeta in P. rewrite <- E in P. destruct P as (H & T & R & N & Mt1).
  unfold m'. cbn [run fold_left].
  set (m1 := step ClickPlayPause m) in *.
  set (m2 := step (Elapse 3000) m1).
  set (t := {| due := now m + 3000; cb_isPlaying := isPlaying (hooks m) |}) in *.
  assert (T2 : timers m2 !! next_timer m = Some t).
  { change (timers m2) with (timers m1). rewrite T. apply lookup_singleton_eq. }
  assert (D2 : due t ≤ now m2).
  { change (now m2) with (now m1 + Z.max 0 3000). rewrite N. simpl. lia. }
  assert (M2 : mounted m2 = true) by (change (mounted m1 = true); congruence).
  destruct (timer_fire_hides_by_captured m2 (next_timer m) t T2 D2 M2)
    as (V & I & D).
  rewrite V, I, D. change (hooks m2) with (hooks m1).
  change (timers m2) with (timers m1). rewrite H, T.
  unfold t. cbn [cb_isPlaying]. rewrite Pl.
  repeat split.
  - destruct m0 as [s ? ? ? ? ? ? ? ? ?]. simpl in *. now rewrite P0, Pl.
  - apply delete_singleton_eq.
Qed.

Lemma play_click_timeout_keeps_controls_witness :
  mounted (run [] (mount false true)) = true ∧
  isPlaying (hooks (run [] (mount false true))) = false ∧
  isControlsVisible
    (hooks (run [ClickPlayPause; Elapse 3000;
                 TimerFire (next_timer (run [] (mount false true)))]
                (run [] (mount false true)))) = true.
Proof.
  assert (Mt : mounted (run [] (mount false true)) = true) by reflexivity.
  assert (Pl : isPlaying (hooks (run [] (mount false true))) = false)
    by reflexivity.
  split; [exact Mt |]. split; [exact Pl |].
  exact (proj1 (proj2 (play_click_timeout_keeps_controls false [] Mt Pl))).
Defined.

(** ** Clicks that bubble *)

(** X9: a click on the play button laid over the paused video runs
    [handlePlayPause] twice in one render.  On the mounted component with
    its element the outcome is that of a single click on play/pause: the
    same state, [play()] sent once, and one timeout pending (the second
    call cancelled the timeout of the first). *)
Theorem overlay_play_click_flips_once (m : Machine) :
  mounted m = true → videoRef m = true → timer_inv m →
  isPlaying (hooks m) = false →
  let m1 := step ClickPlayPause m in
  let m2 := exec (user onClick_overlayPlay) m in
  hooks m2 = hooks m1 ∧
  isPlaying (hooks m2) = true ∧
  v_commands (video m2) = Play :: v_commands (video m) ∧
  timers m2 = {[ Pos.succ (next_timer m) :=
                   {| due := now m + 3000; cb_isPlaying := false |} ]} ∧
  controlsTimeoutRef m2 = Some (Pos.succ (next_timer m)).
Proof.
  intros Mt Vr Inv Pl. break_machine m. subst.
  unfold onClick_overlayPlay. unfold_step. fields.
  repeat (progress (rewrite ?eqb_reflx, ?object_is_refl; fields)).
  destruct Inv as [E | (h & t & E & R)]; fields_in E; subst.
  - destruct controlsTimeoutRef0; fields;
      repeat (progress (rewrite ?eqb_reflx, ?object_is_refl; fields));
      rewrite ?delete_empty, ?insert_empty, ?delete_singleton_eq, ?insert_empty;
      repeat split.
  - fields_in R. subst. fields.
    repeat (progress (rewrite ?eqb_reflx, ?object_is_refl; fields)).
    rewrite ?delete_singleton_eq, ?insert_empty, ?delete_singleton_eq,
      ?insert_empty.
    repeat split.
Qed.

Lemma overlay_play_click_flips_once_witness :
  mounted (mount false true) = true ∧
  isPlaying (hooks (mount false true)) = false ∧
  isPlaying (hooks (exec (user onClick_overlayPlay) (mount false true))) = true.
Proof.
  assert (H1 : mounted (mount false true) = true) by reflexivity.
  assert (H2 : videoRef (mount false true) = true) by reflexivity.
  assert (H3 : timer_inv (mount false true)) by (left; reflexivity).
  assert (H4 : isPlaying (hooks (mount false true)) = false) by reflexivity.
  split; [exact H1 |]. split; [exact H4 |].
  exact (proj1 (proj2 (overlay_play_click_flips_once (mount false true)
                         H1 H2 H3 H4))).
Defined.

(** X10: a click on the mute button in the corner flips [isMuted] and, as the
    click reaches the container, [isPlaying] too: the element is told to
    pause when it was playing and to play when it was paused. *)
Theorem corner_mute_click_toggles_playback (m : Machine) :
  mounted m = true → videoRef m = true →
  let m' := exec (user onClick_cornerMute) m in
  isMuted (hooks m') = negb (isMuted (hooks m)) ∧
  isPlaying (hooks m') = negb (isPlaying (hooks m)) ∧
  volume (hooks m') = volume (hooks m) ∧
  last_playback (v_commands (video m'))
    = Some (negb (isPlaying (hooks m))) ∧
  v_volume (video m')
    = (if negb (isMuted (hooks m)) then num 0 else volume (hooks m)).
Proof.
  intros Mt Vr. break_machine m. subst.
  unfold onClick_cornerMute. unfold_step. fields.
  destruct isPlaying0, isMuted0, controlsTimeoutRef0; fields;
    repeat (progress (rewrite ?eqb_reflx, ?object_is_refl; fields));
    repeat split.
Qed.

Lemma corner_mute_click_toggles_playback_witness :
  mounted (mount true true) = true ∧
  isPlaying (hooks (mount true true)) = true ∧
  isPlaying (hooks (exec (user onClick_cornerMute) (mount true true)))
    = negb (isPlaying (hooks (mount true true))).
Proof.
  assert (H1 : mounted (mount true true) = true) by reflexivity.
  assert (H2 : videoRef (mount true true) = true) by reflexivity.
  split; [exact H1 |]. split; [reflexivity |].
  exact (proj1 (proj2 (corner_mute_click_toggles_playback (mount true true)
                         H1 H2))).
Defined.

(** ** Who writes the mirrored state *)

Lemma duration_kept (ev : Event) (m : Machine) :
  (∀ e, ev ≠ Notify e) → duration (hooks (step ev m)) = duration (hooks m).
Proof.
  intros Hev. destruct ev; try (now destruct (Hev e)); break_machine m.
  - brute.
  - brute.
  - brute.
  - brute.
  - brute.
  - brute.
  - brute.
  - brute.
  - brute.
  - unfold step, handle, unmount, cleanup_effect_listeners,
      removeEventListener. brute.
Qed.

(** X11: in every state the component can reach, the [duration] state changes on
    no event but the "metadata ready" notification, which copies the
    element's duration into it (when the component is mounted and
    subscribed). *)
Theorem duration_only_from_loadedmetadata (autoPlay attached : bool)
    (evs : list Event) (ev : Event) :
  let m := run evs (mount autoPlay attached) in
  duration (hooks (step ev m)) =
    if is_loadedmetadata ev && mounted m && cleanup_listeners m
    then v_duration (video m) else duration (hooks m).
Proof.
  intros m.
  assert (Inv : listeners_inv m)
    by apply run_listeners_inv, mount_listeners_inv.
  clearbody m. clear autoPlay attached evs.
  assert ((∃ e, ev = Notify e) ∨ (∀ e, ev ≠ Notify e)) as [[e ->] | Hev]
    by (destruct ev; (left; eexists; reflexivity) || (right; discriminate)).
  - unfold listeners_inv in Inv. unfold step. cbn [handle].
    rewrite exec_bind. unfold eval, gets at 1. cbn [fst]. rewrite Inv.
    change (exec (gets (λ m0, v_listeners (video m0))) m) with m.
    rewrite react_exec. clear Inv. break_machine m.
    destruct e, mounted0, cleanup_listeners0; cbn [andb is_loadedmetadata];
      try reflexivity; brute.
  - rewrite (duration_kept ev m Hev).
    destruct ev; try reflexivity. now destruct (Hev e).
Qed.

Lemma step_untouched (ev : Event) (m : Machine) :
  untouched m → untouched (step ev m).
Proof.
  unfold untouched. intros (Vr & C & L & P & Pr & Ct & Du).
  destruct ev; break_machine m; subst.
  - brute; repeat split; auto.
  - brute; repeat split; auto.
  - brute; repeat split; auto.
  - brute; repeat split; auto.
  - brute; repeat split; auto.
  - unfold step. cbn [handle]. unfold_step. fields. rewrite L.
    cbn [run_listeners]. brute; repeat split; auto.
  - brute; repeat split; auto.
  - brute; repeat split; auto.
  - brute; repeat split; auto.
  - brute; repeat split; auto.
  - unfold step, handle, unmount, cleanup_effect_listeners,
      removeEventListener. brute; rewrite ?L; repeat split; auto.
Qed.

(** X12: mounted while [videoRef.current] is null, the component never reaches
    the element: whatever happens, it sends it no command, registers no
    listener on it, and the mirrored position and duration stay 0. *)
Theorem without_element_nothing_is_sent (autoPlay : bool) (evs : list Event) :
  let m := run evs (mount autoPlay false) in
  v_commands (video m) = [] ∧ v_listeners (video m) = [] ∧
  play_promises m = 0%nat ∧
  progress (hooks m) = num 0 ∧ currentTime (hooks m) = num 0 ∧
  duration (hooks m) = num 0.
Proof.
  intros m.
  assert (U : untouched m).
  { unfold m. generalize (mount autoPlay false),
      (ltac:(destruct autoPlay; repeat split) : untouched (mount autoPlay false)).
    induction evs as [| ev evs IH]; intros m0 H; [exact H |].
    apply IH, step_untouched, H. }
  destruct U as (_ & U). exact U.
Qed.

(** ** After the clip ended *)

(** X14: the "ended" handler together with the "time advanced" notification of
    its seek: on an element with a finite duration [d > 0], once the element
    reports the position 0 it was set to, the state has [isPlaying = false],
    [currentTime = 0] and [progress = 0]. *)
Theorem ended_then_timeupdate_resets (m : Machine) (d : Qc) :
  v_duration (video m) = Fin d → (0 < d)%Qc →
  let m2 := exec handleTimeUpdate (exec handleEnded m) in
  isPlaying (hooks m2) = false ∧
  currentTime (hooks m2) = num 0 ∧
  progress (hooks m2) = num 0.
Proof.
  intros Hd Hpos. break_machine m. subst.
  unfold handleEnded, handleTimeUpdate. unfold_m. fields. rewrite Hd.
  assert (Hz : is_zero d = false) by (apply is_zero_false; now apply Qc_pos_neq_0).
  unfold num, mul, div. rewrite Hz. repeat split.
  f_equal. rewrite Qc_of_Z_0. unfold Qcdiv. now rewrite !Qcmult_0_l.
Qed.

Lemma ended_then_timeupdate_resets_witness :
  v_duration (video at_end_of_clip) = Fin (Qc_of_Z 125) ∧
  currentTime (hooks at_end_of_clip) = num 125 ∧
  currentTime (hooks (exec handleTimeUpdate (exec handleEnded at_end_of_clip)))
  = num 0.
Proof.
  assert (H1 : v_duration (video at_end_of_clip) = Fin (Qc_of_Z 125))
    by reflexivity.
  assert (H2 : (0 < Qc_of_Z 125)%Qc) by reflexivity.
  split; [exact H1 |]. split; [reflexivity |].
  exact (proj1 (proj2 (ended_then_timeupdate_resets at_end_of_clip
                         (Qc_of_Z 125) H1 H2))).
Defined.

(** X15: dragging the volume to 0 mutes and overwrites the stored volume, so the
    mute button cannot bring the sound back: after the slider went to 0, a
    click on mute clears [isMuted], and the element's volume is still 0. *)
Theorem unmute_after_zero_volume_is_silent (m : Machine) :
  mounted m = true → videoRef m = true →
  let m1 := step (ChangeVolume (num 0)) m in
  let m2 := step ClickMute m1 in
  isMuted (hooks m1) = true ∧
  isMuted (hooks m2) = false ∧
  volume (hooks m2) = num 0 ∧
  v_volume (video m2) = num 0.
Proof.
  intros Mt Vr. break_machine m. subst.
  unfold_step. fields.
  change (strict_eq (num 0) (num 0)) with true. fields.
  destruct controlsTimeoutRef0, isMuted0; fields;
    repeat (progress (rewrite ?eqb_reflx, ?object_is_refl; fields));
    destruct (object_is volume0 (num 0)); fields;
    repeat (progress (rewrite ?eqb_reflx, ?object_is_refl; fields));
    repeat split.
Qed.

Lemma unmute_after_zero_volume_is_silent_witness :
  mounted (mount false true) = true ∧
  v_volume (video (mount false true)) = Fin (Q2Qc (1 # 2)) ∧
  v_volume (video (step ClickMute
                     (step (ChangeVolume (num 0)) (mount false true))))
  = num 0.
Proof.
  assert (H1 : mounted (mount false true) = true) by reflexivity.
  assert (H2 : videoRef (mount false true) = true) by reflexivity.
  split; [exact H1 |]. split; [reflexivity |].
  exact (proj2 (proj2 (proj2 (unmute_after_zero_volume_is_silent
                                (mount false true) H1 H2)))).
Defined.
